(** * ExoScope (HuntingExoPlanet): the dashboard's data layer, verified

    A shallow embedding of the parts of the front end that carry data:

    - [src/data/models.ts]: the per-mission tables [models] and
      [modelSpecifications] (module [Models]);
    - [src/pages/Explorer.tsx]: the CSV upload [handleFile] and the derived
      tables [statusCounts], [distributionData], [orbitalData], [getNum],
      [scatterData], [mean], [med], [summaryStats] and the average
      confidence (module [Explorer]);
    - [src/components/Footer.tsx] and [src/App.tsx]: the parameter form and
      the navigation (modules [ParameterInput] and [Navigation]);
    - the focus-feature projection of the importance ranking, whose Python
      implementation is not part of the sources at hand (module [Explainer]).

    Conventions.  A JavaScript string is a [string] of bytes; trimming and
    lower-casing act on the ASCII range.  A JavaScript number is a [number]:
    [NaN], an infinity, or a finite value kept as an exact rational (the
    rounding of binary64 and the sign of zero are not represented).  An
    object used as a dictionary is a [gmap] on its own string keys.

    Two further modules go beyond these conventions.  [Objects] has the
    upload and the status counts with the language's own [trim] and
    [toLowerCase] as parameters and with the properties an object inherits
    from [Object.prototype]; [Machine] has the median over any arithmetic,
    binary64 included. *)

From Stdlib Require Import QArith Qround ZArith Ascii String List Sorted Permutation Lia Lqa Bool.
From Stdlib Require PrimFloat.
From stdpp Require Import gmap strings list fin_maps pretty.

Local Open Scope string_scope.

(** ** Stable sorting

    [sort before l] is the stable arrangement of [l] in which [x] is not
    moved behind [y] when [before x y] holds: elements that tie keep their
    order. *)

Module StableSort.
Section Sort.
Context {A : Type} (before : A → A → bool).

Fixpoint insert (x : A) (l : list A) : list A :=
  match l with
  | [] => [x]
  | y :: l' => if before x y then x :: l else y :: insert x l'
  end.

Fixpoint sort (l : list A) : list A :=
  match l with
  | [] => []
  | x :: l' => insert x (sort l')
  end.
End Sort.
End StableSort.

(** ** JavaScript values and built-ins used by the sources *)

Module JS.

Inductive number : Type :=
| NaN
| Inf (negative : bool)
| Fin (q : Q).

(** [Number.isNaN] and [Number.isFinite]. *)
Definition isNaN (n : number) : bool :=
  match n with NaN => true | _ => false end.

Definition isFinite (n : number) : bool :=
  match n with Fin _ => true | _ => false end.

(** The relational operators [<] and [>=] on numbers: every comparison with
    [NaN] is false. *)
Definition lt (a b : number) : bool :=
  match a, b with
  | NaN, _ | _, NaN => false
  | Inf true, Inf true => false
  | Inf true, _ => true
  | _, Inf true => false
  | Inf false, _ => false
  | Fin _, Inf false => true
  | Fin x, Fin y => negb (Qle_bool y x)
  end.

Definition ge (a b : number) : bool :=
  match a, b with
  | NaN, _ | _, NaN => false
  | _, _ => negb (lt a b)
  end.

(** [String.prototype.trim], on ASCII white space and line terminators. *)
Fixpoint trimStart (s : string) : string :=
  match s with
  | String c s' => if Ascii.is_space c then trimStart s' else s
  | EmptyString => EmptyString
  end.

Definition trimEnd (s : string) : string := String.rev (trimStart (String.rev s)).

Definition trim (s : string) : string := trimEnd (trimStart s).

(** [String.prototype.toLowerCase], on ASCII letters. *)
Definition lower (c : ascii) : ascii :=
  let n := nat_of_ascii c in
  if (65 <=? n)%nat && (n <=? 90)%nat then ascii_of_nat (n + 32) else c.

Fixpoint toLowerCase (s : string) : string :=
  match s with
  | String c s' => String (lower c) (toLowerCase s')
  | EmptyString => EmptyString
  end.

(** [s.split(sep)] for a one-character separator: never empty, the pieces
    in order. *)
Fixpoint split (sep : ascii) (s : string) : list string :=
  match s with
  | EmptyString => [EmptyString]
  | String c s' =>
      if Ascii.eqb c sep then EmptyString :: split sep s'
      else match split sep s' with
           | p :: ps => String c p :: ps
           | [] => [String c EmptyString]
           end
  end.

(** [s.split(/\r?\n/)]: the separator is a line feed together with the
    carriage return just before it, when there is one. *)
Fixpoint splitLines (s : string) : list string :=
  match s with
  | EmptyString => [EmptyString]
  | String "013" (String "010" s') => EmptyString :: splitLines s'
  | String c s' =>
      if Ascii.eqb c "010" then EmptyString :: splitLines s'
      else match splitLines s' with
           | p :: ps => String c p :: ps
           | [] => [String c EmptyString]
           end
  end.

(** [xs[i]] on an array: [undefined], here [None], outside the bounds. *)
Definition index {A} (xs : list A) (i : Z) : option A :=
  if (i <? 0)%Z then None else xs !! Z.to_nat i.

(** [xs.findIndex(p)]: the first position that satisfies [p], or [-1]. *)
Fixpoint findIndex {A} (p : A → bool) (xs : list A) : Z :=
  match xs with
  | [] => (-1)%Z
  | x :: xs' =>
      if p x then 0%Z
      else let i := findIndex p xs' in
           if (i <? 0)%Z then (-1)%Z else (i + 1)%Z
  end.

(** [Array.prototype.sort(cmp)]: the sort is stable, and [a] stays before
    [b] when [cmp(a, b) <= 0]; for a consistent comparator the result does
    not depend on the engine's algorithm. *)
Definition Array_sort {A} (cmp : A → A → Q) (xs : list A) : list A :=
  StableSort.sort (λ a b, Qle_bool (cmp a b) 0) xs.

(** *** A reference model of [Number(s)] on strings

    The grammar of StringToNumber: surrounding white space, the empty string
    as zero, [Infinity], signed decimal literals with fraction and exponent,
    and unsigned hexadecimal, octal and binary integers. *)

Definition digitOf (base : Z) (c : ascii) : option Z :=
  let n := Z.of_nat (nat_of_ascii c) in
  let v := if (48 <=? n)%Z && (n <=? 57)%Z then Some (n - 48)%Z
           else if (97 <=? n)%Z && (n <=? 102)%Z then Some (n - 87)%Z
           else if (65 <=? n)%Z && (n <=? 70)%Z then Some (n - 55)%Z
           else None in
  match v with
  | Some d => if (d <? base)%Z then Some d else None
  | None => None
  end.

(** The longest prefix of digits: its value, its length, and the rest. *)
Fixpoint spanDigits (base : Z) (s : string) (acc : Z) (len : nat) : Z * nat * string :=
  match s with
  | String c s' =>
      match digitOf base c with
      | Some d => spanDigits base s' (acc * base + d)%Z (S len)
      | None => (acc, len, s)
      end
  | EmptyString => (acc, len, s)
  end.

Definition wholeInteger (base : Z) (s : string) : option Z :=
  match spanDigits base s 0 0 with
  | (v, S _, EmptyString) => Some v
  | _ => None
  end.

Definition nonDecimal (s : string) : option (option Z) :=
  match s with
  | String "0" (String c r) =>
      if Ascii.eqb c "x" || Ascii.eqb c "X" then Some (wholeInteger 16 r)
      else if Ascii.eqb c "o" || Ascii.eqb c "O" then Some (wholeInteger 8 r)
      else if Ascii.eqb c "b" || Ascii.eqb c "B" then Some (wholeInteger 2 r)
      else None
  | _ => None
  end.

Definition signOf (s : string) : bool * string :=
  match s with
  | String "-" r => (true, r)
  | String "+" r => (false, r)
  | _ => (false, s)
  end.

Definition exponentPart (s : string) : option Z :=
  match s with
  | EmptyString => Some 0%Z
  | String c r =>
      if Ascii.eqb c "e" || Ascii.eqb c "E" then
        let '(neg, d) := signOf r in
        match wholeInteger 10 d with
        | Some e => Some (if neg then (- e)%Z else e)
        | None => None
        end
      else None
  end.

Definition decimalLiteral (s : string) : number :=
  let '(neg, u) := signOf s in
  if String.eqb u "Infinity" then Inf neg
  else
    let '(ip, ilen, r1) := spanDigits 10 u 0 0 in
    let '(m, flen, r2) :=
      match r1 with
      | String "." r => spanDigits 10 r ip 0
      | _ => (ip, 0%nat, r1)
      end in
    if (ilen + flen =? 0)%nat then NaN
    else match exponentPart r2 with
         | Some e =>
             let v := (inject_Z m * Qpower 10 (e - Z.of_nat flen))%Q in
             Fin (Qred (if neg then - v else v))
         | None => NaN
         end.

Definition StringToNumber (s : string) : number :=
  let t := trim s in
  if String.eqb t "" then Fin 0
  else match nonDecimal t with
       | Some (Some v) => Fin (inject_Z v)
       | Some None => NaN
       | None => decimalLiteral t
       end.

(** *** A reference model of [String(n)] on numbers

    Integers print their digits, other finite values their decimal expansion
    (at most seventeen fractional digits); the exponent notation of very
    large and very small magnitudes is not represented. *)

Fixpoint fractionDigits (fuel : nat) (r d : Z) : string :=
  match fuel with
  | O => EmptyString
  | S fuel' =>
      if (r =? 0)%Z then EmptyString
      else pretty ((r * 10) / d)%Z +:+ fractionDigits fuel' ((r * 10) mod d)%Z d
  end.

Definition NumberToString (n : number) : string :=
  match n with
  | NaN => "NaN"
  | Inf false => "Infinity"
  | Inf true => "-Infinity"
  | Fin q =>
      let q' := Qred q in
      let a := Z.abs (Qnum q') in
      let d := Zpos (Qden q') in
      let sign := if (Qnum q' <? 0)%Z then "-" else "" in
      if (d =? 1)%Z then sign +:+ pretty a
      else sign +:+ pretty (a / d)%Z +:+ "." +:+ fractionDigits 17 (a mod d)%Z d
  end.

(** [Math.round] on a finite number: the nearest integer, a half going up. *)
Definition Math_round (q : Q) : Z := Qfloor (q + (1 # 2)).

End JS.

(** ** [src/data/models.ts]: the per-mission tables *)

Module Models.

(** The shapes of [ModelInfo] and [ModelSpecification] are read off the
    object literals; decimal literals are kept as exact rationals. *)
Module ModelInfo.
Record t : Type := {
  name : string;
  description : string;
  yearOfOperation : string;
  accuracy : Q;
  f1Score : Q;
  logo : string
}.
End ModelInfo.

Module Dataset.
Record t : Type := {
  size : string;
  source : string;
  features : list string
}.
End Dataset.

Module Metrics.
Record t : Type := {
  accuracy : Q;
  precision : Q;
  recall : Q;
  f1Score : Q
}.
End Metrics.

Module ModelSpecification.
Record t : Type := {
  dataset : Dataset.t;
  architecture : string;
  metrics : Metrics.t;
  confusionMatrix : list (list Z)
}.
End ModelSpecification.

Definition K2_info : ModelInfo.t := {|
  ModelInfo.name := "K2";
  ModelInfo.description := "Extended Kepler mission observing new fields along the ecliptic plane";
  ModelInfo.yearOfOperation := "2014-2018";
  ModelInfo.accuracy := 94.2;
  ModelInfo.f1Score := 0.91;
  ModelInfo.logo := "🛰️"
|}.

Definition TESS_info : ModelInfo.t := {|
  ModelInfo.name := "TESS";
  ModelInfo.description := "Transiting Exoplanet Survey Satellite scanning nearly the entire sky";
  ModelInfo.yearOfOperation := "2018-Present";
  ModelInfo.accuracy := 96.8;
  ModelInfo.f1Score := 0.94;
  ModelInfo.logo := "🔭"
|}.

Definition Kepler_info : ModelInfo.t := {|
  ModelInfo.name := "Kepler";
  ModelInfo.description := "Primary mission monitoring 150,000 stars for planetary transits";
  ModelInfo.yearOfOperation := "2009-2013";
  ModelInfo.accuracy := 93.5;
  ModelInfo.f1Score := 0.89;
  ModelInfo.logo := "🌟"
|}.

Definition models : gmap string ModelInfo.t :=
  list_to_map [("K2", K2_info); ("TESS", TESS_info); ("Kepler", Kepler_info)].

Definition K2_spec : ModelSpecification.t := {|
  ModelSpecification.dataset := {|
    Dataset.size := "4,004 rows";
    Dataset.source := "k2pandc_2025.10.04_00.32.39.csv";
    Dataset.features := [
      "koi_model_snr (Signal-to-noise ratio)";
      "koi_depth (Transit depth)";
      "koi_prad (Planet radius, Earth radii)";
      "koi_teq (Equilibrium temperature, K)";
      "koi_duration (Transit duration, hours)";
      "koi_period (Orbital period, days)"
    ]
  |};
  ModelSpecification.architecture := "Random Forest (100 trees) with standardization";
  ModelSpecification.metrics := {|
    Metrics.accuracy := 94.2;
    Metrics.precision := 0.92;
    Metrics.recall := 0.90;
    Metrics.f1Score := 0.91
  |};
  ModelSpecification.confusionMatrix := [
    [8420; 340];
    [480; 7760]
  ]%Z
|}.

Definition TESS_spec : ModelSpecification.t := {|
  ModelSpecification.dataset := {|
    Dataset.size := "7,704 rows";
    Dataset.source := "TOI_2025.10.04_00.32.31.csv";
    Dataset.features := [
      "koi_model_snr (Signal-to-noise ratio)";
      "koi_depth (Transit depth)";
      "koi_prad (Planet radius, Earth radii)";
      "koi_teq (Equilibrium temperature, K)";
      "koi_duration (Transit duration, hours)";
      "koi_period (Orbital period, days)"
    ]
  |};
  ModelSpecification.architecture := "Random Forest (100 trees) with standardization";
  ModelSpecification.metrics := {|
    Metrics.accuracy := 96.8;
    Metrics.precision := 0.95;
    Metrics.recall := 0.93;
    Metrics.f1Score := 0.94
  |};
  ModelSpecification.confusionMatrix := [
    [9120; 180];
    [360; 8340]
  ]%Z
|}.

Definition Kepler_spec : ModelSpecification.t := {|
  ModelSpecification.dataset := {|
    Dataset.size := "9,565 rows";
    Dataset.source := "cleaned_kepler_train.csv";
    Dataset.features := [
      "koi_model_snr (Signal-to-noise ratio)";
      "koi_depth (Transit depth)";
      "koi_prad (Planet radius, Earth radii)";
      "koi_teq (Equilibrium temperature, K)";
      "koi_duration (Transit duration, hours)";
      "koi_period (Orbital period, days)"
    ]
  |};
  ModelSpecification.architecture := "Random Forest (100 trees) with standardization";
  ModelSpecification.metrics := {|
    Metrics.accuracy := 93.5;
    Metrics.precision := 0.91;
    Metrics.recall := 0.88;
    Metrics.f1Score := 0.89
  |};
  ModelSpecification.confusionMatrix := [
    [17200; 800];
    [1300; 15700]
  ]%Z
|}.

Definition modelSpecifications : gmap string ModelSpecification.t :=
  list_to_map [("K2", K2_spec); ("TESS", TESS_spec); ("Kepler", Kepler_spec)].

(** *** Readings of the tables used in the statements below *)

(** The column a feature label names: the label up to its first space, the
    rest being a parenthesised gloss. *)
Fixpoint featureName (label : string) : string :=
  match label with
  | String c s => if Ascii.eqb c " " then EmptyString else String c (featureName s)
  | EmptyString => EmptyString
  end.

(** The row count a [size] string states: its leading digits, thousands
    separators skipped. *)
Fixpoint statedRowsFrom (acc : Z) (size : string) : Z :=
  match size with
  | String c s =>
      if Ascii.eqb c "," then statedRowsFrom acc s
      else match JS.digitOf 10 c with
           | Some d => statedRowsFrom (acc * 10 + d)%Z s
           | None => acc
           end
  | EmptyString => acc
  end.

Definition statedRows (size : string) : Z := statedRowsFrom 0 size.

Definition entries (m : list (list Z)) : list Z := concat m.

Definition total (m : list (list Z)) : Z := foldr Z.add 0%Z (entries m).

(** An [n] by [n] matrix. *)
Definition square (n : nat) (m : list (list Z)) : Prop :=
  length m = n ∧ Forall (λ row, length row = n) m.

End Models.

(** ** [src/pages/Explorer.tsx]: the upload and the derived tables *)

Module Explorer.
Import JS.

(** What a field of an uploaded record holds, [string | number]. *)
Inductive scalar : Type :=
| VStr (s : string)
| VNum (n : number).

Definition isNumber (v : scalar) : bool :=
  match v with VNum _ => true | VStr _ => false end.

(** [Boolean(s)] on a string: true unless the string is empty. *)
Definition Boolean (s : string) : bool := negb (String.eqb s "").

Record Distribution : Type := {
  name : string;
  value : nat;
  color : string
}.

Record Bin : Type := {
  label : string;
  min : number;
  max : number
}.

Record BinCount : Type := {
  range : string;
  count : nat
}.

Module DEFAULT_COLORS.
Definition confirmed : string := "#22c55e".
Definition candidate : string := "#06b6d4".
Definition false_positive : string := "#ef4444".
Definition unknown : string := "#f59e0b".
End DEFAULT_COLORS.

Definition requiredCols : list string :=
  ["koi_model_snr"; "koi_depth"; "koi_prad"; "koi_teq"; "koi_duration"; "koi_period"; "status"].

Section Builtins.
(** The two conversions of the language that the page relies on:
    [Number(s)] on a string and [String(n)] on a number.  The page's
    functions are defined for any behaviour of these; [JS.StringToNumber]
    and [JS.NumberToString] are the reference models. *)
Variable Number : string → number.
Variable String_ : number → string.

(** [Number(v)] and [String(v)] on what a record field can hold;
    a missing field is [undefined]. *)
Definition toNumber (v : option scalar) : number :=
  match v with
  | None => NaN
  | Some (VNum n) => n
  | Some (VStr s) => Number s
  end.

Definition toString (v : scalar) : string :=
  match v with
  | VStr s => s
  | VNum n => String_ n
  end.

(** [obj[h] = raw !== '' && !Number.isNaN(num) ? num : raw] *)
Definition cell (raw : string) : scalar :=
  let num := Number raw in
  if negb (String.eqb raw "") && negb (isNaN num) then VNum num else VStr raw.

(** The body of [lines.slice(1).map(...)]: one record from one line;
    [headers.forEach((h, i) => ...)] assigns the fields in order, a later
    header of the same name overwriting an earlier one. *)
Definition record (headers : list string) (line : string) : gmap string scalar :=
  let cells := split "," line in
  foldl (λ obj '(i, h), <[h := cell (trim (default "" (cells !! i)))]> obj)
        ∅ (imap pair headers).

Definition handleFile (text : string) : list (gmap string scalar) :=
  let lines := List.filter Boolean (splitLines text) in
  if (length lines <? 2)%nat then []
  else
    let headers := trim <$> split "," (default "" (head lines)) in
    record headers <$> tail lines.

Section Derived.
Variable customRows : list (gmap string scalar).

Definition usingUploaded : bool := (0 <? length customRows)%nat.

(** [String(r.status ?? 'unknown').toLowerCase()] *)
Definition statusOf (r : gmap string scalar) : string :=
  toLowerCase (toString (default (VStr "unknown") (r !! "status"))).

Definition statusCounts : gmap string nat :=
  let counts : gmap string nat :=
    <["confirmed" := 0%nat]> (<["candidate" := 0%nat]>
      (<["false_positive" := 0%nat]> (<["unknown" := 0%nat]> ∅))) in
  if negb usingUploaded then counts
  else foldl (λ counts r,
                let s := statusOf r in
                <[s := (default 0 (counts !! s) + 1)%nat]> counts)
             counts customRows.

(** A property read that finds nothing is [undefined], and
    [undefined > 0] is false: such an entry is filtered out like a
    zero, which is how [default 0] reads it here. *)
Definition distributionData : list Distribution :=
  if negb usingUploaded then []
  else List.filter (λ d, (0 <? value d)%nat) [
    {| name := "Confirmed"; value := default 0%nat (statusCounts !! "confirmed");
       color := DEFAULT_COLORS.confirmed |};
    {| name := "Candidate"; value := default 0%nat (statusCounts !! "candidate");
       color := DEFAULT_COLORS.candidate |};
    {| name := "False Positive"; value := default 0%nat (statusCounts !! "false_positive");
       color := DEFAULT_COLORS.false_positive |};
    {| name := "Unknown"; value := default 0%nat (statusCounts !! "unknown");
       color := DEFAULT_COLORS.unknown |}
  ].

Definition bins : list Bin := [
  {| label := "0-10d"; min := Fin 0; max := Fin 10 |};
  {| label := "10-50d"; min := Fin 10; max := Fin 50 |};
  {| label := "50-100d"; min := Fin 50; max := Fin 100 |};
  {| label := "100-200d"; min := Fin 100; max := Fin 200 |};
  {| label := "200+d"; min := Fin 200; max := Inf false |}
].

Definition inBin (val : number) (b : Bin) : bool := ge val (min b) && lt val (max b).

(** [counts[idx].count += 1]; [idx] comes from [findIndex] on [bins], so
    it is within [counts]. *)
Definition bump (idx : Z) (counts : list BinCount) : list BinCount :=
  alter (λ c, {| range := range c; count := (count c + 1)%nat |}) (Z.to_nat idx) counts.

Definition orbitalData : list BinCount :=
  if negb usingUploaded then []
  else
    let counts := (λ b, {| range := label b; count := 0%nat |}) <$> bins in
    foldl (λ counts r,
             let val := toNumber (r !! "koi_period") in
             if isFinite val then
               let idx := findIndex (inBin val) bins in
               if (0 <=? idx)%Z then bump idx counts else counts
             else counts)
          counts customRows.

(** [customRows.map((r) => Number(r[k])).filter((x) => Number.isFinite(x))]:
    the finite values, as rationals. *)
Definition getNum (k : string) : list Q :=
  omap (λ r, match toNumber (r !! k) with Fin q => Some q | _ => None end) customRows.
End Derived.
End Builtins.

(** *** Arrays as shared objects

    [med] copies its argument and sorts the copy in place; whether the
    argument itself is left alone is a statement about the store of arrays.
    A reference names an array of the store; a computation threads the
    store. *)

Abbreviation ref := nat (only parsing).
Abbreviation store := (gmap nat (list Q)) (only parsing).

Definition M (A : Type) : Type := store → A * store.

Definition ret {A} (a : A) : M A := λ σ, (a, σ).

Definition bind {A B} (m : M A) (k : A → M B) : M B :=
  λ σ, let '(a, σ') := m σ in k a σ'.

Notation "x <- m ;; k" := (bind m (λ x, k))
  (at level 100, m at next level, right associativity).

(** The elements of an array (none for a reference that names nothing). *)
Definition contents (a : ref) : M (list Q) := λ σ, (default [] (σ !! a), σ).

(** A new array with the given elements. *)
Definition alloc (xs : list Q) : M ref :=
  λ σ, let a := fresh (dom σ) in (a, <[a := xs]> σ).

(** [[...arr]] *)
Definition spread (arr : ref) : M ref := xs <- contents arr ;; alloc xs.

(** [arr.sort(cmp)]: sorts the array in place and returns the same
    reference. *)
Definition sort_ (cmp : Q → Q → Q) (arr : ref) : M ref :=
  λ σ, (arr, alter (Array_sort cmp) arr σ).

Definition mean (arr : ref) : M Q :=
  xs <- contents arr ;;
  ret (if (0 <? length xs)%nat
       then (foldl Qplus 0 xs / inject_Z (Z.of_nat (length xs)))%Q
       else 0%Q).

(** The result is [None] where the source would yield [undefined] or
    [NaN], that is when an index falls outside the array. *)
Definition med (arr : ref) : M (option Q) :=
  xs <- contents arr ;;
  if (length xs =? 0)%nat then ret (Some 0%Q)
  else
    s <- (c <- spread arr ;; sort_ (λ a b, a - b)%Q c) ;;
    sv <- contents s ;;
    let m := (Z.of_nat (length sv) / 2)%Z in
    ret (if negb (Z.of_nat (length sv) mod 2 =? 0)%Z then index sv m
         else x ← index sv (m - 1)%Z; y ← index sv m; Some ((x + y) / 2)%Q).

Record Summary : Type := {
  rows : nat;
  snrMean : Q;
  depthMedian : option Q;
  periodMean : Q
}.

Definition summaryStats (Number : string → number)
    (customRows : list (gmap string scalar)) : M Summary :=
  snr <- alloc (getNum Number customRows "koi_model_snr") ;;
  depth <- alloc (getNum Number customRows "koi_depth") ;;
  period <- alloc (getNum Number customRows "koi_period") ;;
  sm <- mean snr ;;
  dm <- med depth ;;
  pm <- mean period ;;
  ret {| rows := length customRows; snrMean := sm; depthMedian := dm; periodMean := pm |}.

(** *** The scatter chart *)

Record Point : Type := {
  radius : number;
  temperature : number;
  status : string
}.

Section Scatter.
Variable Number : string → number.
Variable String_ : number → string.
Variable customRows : list (gmap string scalar).

(** [r.koi_prad != null && r.koi_teq != null]: both fields are there. *)
Definition plotted (r : gmap string scalar) : bool :=
  bool_decide (is_Some (r !! "koi_prad")) && bool_decide (is_Some (r !! "koi_teq")).

Definition scatterData : list Point :=
  if negb (usingUploaded customRows) then []
  else
    (λ r, {| radius := toNumber Number (r !! "koi_prad");
             temperature := toNumber Number (r !! "koi_teq");
             status := statusOf String_ r |})
      <$> List.filter plotted customRows.

End Scatter.

(** *** The average confidence

    The effect fetches the prediction history and stores the mean of the
    confidences, or [null] when the history is empty or the fetch fails.
    The history is what the fetch returned ([None] when it threw); an entry
    is its confidence, if it has one. *)

Definition avgConfidence (history : option (list (option Q))) : option Q :=
  match history with
  | None => None
  | Some history =>
      if (length history =? 0)%nat then None
      else Some (foldl (λ sum h, sum + default 0 h) 0 history
                 / inject_Z (Z.of_nat (length history)))%Q
  end.

(** [avgConfidence == null ? '—' : `${Math.round(avgConfidence * 100)}%`] *)
Definition confidenceLabel (avg : option Q) : string :=
  match avg with
  | None => "—"
  | Some a => pretty (Math_round (a * 100)) +:+ "%"
  end.

(** *** Readings used in the statements below *)

(** The non-empty lines of a text and its header names, as [handleFile]
    computes them. *)
Definition linesOf (text : string) : list string :=
  List.filter Boolean (splitLines text).

Definition headersOf (text : string) : list string :=
  trim <$> split "," (default "" (head (linesOf text))).

(** The trimmed text of the [j]-th cell of a line; a line with fewer cells
    has empty ones there. *)
Definition rawCell (line : string) (j : nat) : string :=
  trim (default "" (split "," line !! j)).

(** A column is typed when all the records that have it agree on whether it
    holds a number. *)
Definition columnTyped (customRows : list (gmap string scalar)) (h : string) : Prop :=
  ∀ r1 r2 v1 v2, r1 ∈ customRows → r2 ∈ customRows →
    r1 !! h = Some v1 → r2 !! h = Some v2 → isNumber v1 = isNumber v2.

(** The sum of the values the distribution chart shows. *)
Definition chartTotal (data : list Distribution) : nat := sum_list (value <$> data).

(** The statuses the distribution chart has an entry for. *)
Definition knownStatuses : list string :=
  ["confirmed"; "candidate"; "false_positive"; "unknown"].

(** A row is counted by the histogram when its period, as a number, is
    finite and not negative. *)
Definition counted (Number : string → number) (r : gmap string scalar) : Prop :=
  match toNumber Number (r !! "koi_period") with
  | Fin q => Qle_bool 0 q = true
  | _ => False
  end.

Global Instance counted_dec Number r : Decision (counted Number r).
Proof. unfold counted. destruct (toNumber Number (r !! "koi_period")); apply _. Defined.

(** The sum of the histogram's bars. *)
Definition binsTotal (counts : list BinCount) : nat := sum_list (count <$> counts).

(** *** Sample uploads *)

(** Line feed. *)
Definition LF : string := String "010" EmptyString.

(** A depth column with a number in one line and a word in the next. *)
Definition mixedColumn : string :=
  "koi_depth,status" +:+ LF +:+ "120.5,confirmed" +:+ LF +:+ "n/a,candidate".

(** One data line whose status cell is empty. *)
Definition emptyStatus : string :=
  "koi_period,status" +:+ LF +:+ "5,".

(** Two uploads with the same statuses, line by line, and different
    periods. *)
Definition uploadA : string :=
  "koi_period,status" +:+ LF +:+ "5,confirmed" +:+ LF +:+ "20,candidate".

Definition uploadB : string :=
  "koi_period,status" +:+ LF +:+ "300.5,confirmed" +:+ LF +:+ ",candidate".

(** One data line whose period cell is empty. *)
Definition emptyPeriod : string :=
  "koi_period,status" +:+ LF +:+ ",confirmed".

(** *** Rendering a table as text *)

(** The parts joined by a separator, as [parts.join(sep)] gives them. *)
Fixpoint joinWith (sep : string) (parts : list string) : string :=
  match parts with
  | [] => ""
  | p :: ps => match ps with [] => p | _ => p +:+ sep +:+ joinWith sep ps end
  end.

(** Carriage return and line feed. *)
Definition CRLF : string := String "013" LF.

(** The two line endings the upload understands. *)
Definition lineEnding (sep : string) : Prop := sep = LF ∨ sep = CRLF.

(** Whether a character occurs in a string. *)
Fixpoint has (c : ascii) (s : string) : bool :=
  match s with
  | String d s' => Ascii.eqb d c || has c s'
  | EmptyString => false
  end.

(** A line holds no line feed and no carriage return; a cell, moreover, no
    comma. *)
Definition plainLine (s : string) : Prop := has "010" s = false ∧ has "013" s = false.

Definition plainCell (s : string) : Prop := has "," s = false ∧ plainLine s.

(** A table, header first, written out as comma-separated lines. *)
Definition render (sep : string) (table : list (list string)) : string :=
  joinWith sep (joinWith "," <$> table).

(** The entries the distribution chart can show: name, status key and
    colour. *)
Definition palette : list (string * string * string) := [
  ("Confirmed", "confirmed", DEFAULT_COLORS.confirmed);
  ("Candidate", "candidate", DEFAULT_COLORS.candidate);
  ("False Positive", "false_positive", DEFAULT_COLORS.false_positive);
  ("Unknown", "unknown", DEFAULT_COLORS.unknown)
].

(** A row's period, as a number, is finite and in the bin. *)
Definition periodIn (Number : string → number) (b : Bin) (r : gmap string scalar) : Prop :=
  isFinite (toNumber Number (r !! "koi_period"))
  && inBin (toNumber Number (r !! "koi_period")) b = true.

Global Instance periodIn_dec Number b r : Decision (periodIn Number b r).
Proof. unfold periodIn. apply _. Defined.

(** *** More sample uploads *)

Definition sampleHeader : list string := ["koi_period"; "status"].

Definition sampleRows : list (list string) := [["5"; "confirmed"]; [""; "candidate"]].

(** The same lines with a blank one in two places. *)
Definition linesA : list string := ["a,b"; ""; "1,2"].

Definition linesB : list string := ["a,b"; "1,2"; ""].

(** A data line with fewer cells than the header. *)
Definition shortLine : string := "koi_period,status" +:+ LF +:+ "5".

(** The same cells, once bare and once with padding and a further cell. *)
Definition bareCells : string := "a,b" +:+ LF +:+ "1,2".

Definition paddedCells : string := "a,b" +:+ LF +:+ " 1 ,2,extra".

(** An upload with the two columns of the scatter chart. *)
Definition scatterUpload : string :=
  "koi_prad,koi_teq,status" +:+ LF +:+ "1.5,300,confirmed" +:+ LF +:+ "n/a,,candidate".

(** An upload without any of the summary's columns. *)
Definition statusOnly : string := "status" +:+ LF +:+ "confirmed".

(** A header, a blank line, a data line, a data line of two empty cells,
    and a blank line. *)
Definition blankLines : list string :=
  ["koi_period,status"; ""; "5,confirmed"; ","; ""].

(** Two data lines, the second with the status __proto__. *)
Definition protoStatus : string :=
  "status" +:+ LF +:+ "Confirmed" +:+ LF +:+ "__proto__".

(** Two data lines with the status constructor. *)
Definition constructorStatus : string :=
  "status" +:+ LF +:+ "constructor" +:+ LF +:+ "constructor".

(** A history of three predictions, one without a confidence. *)
Definition confidences : list (option Q) := [Some 0.9%Q; None; Some 0.6%Q].

End Explorer.

(** ** The page's objects, with their prototype

    A record of the upload and the table of status counts are plain
    objects, and [trim] and [toLowerCase] are the language's, which know more
    white space and more letters than the ASCII ones of [JS].  Here are
    [handleFile] and [statusCounts] once more with what module [Explorer]
    leaves out.  The two string functions are parameters, as [Number] and
    [String] are.  An object has the properties of [Object.prototype] behind
    its own: a read that finds no property of the object's own goes on to the
    prototype, and a write under the name [__proto__] goes to the prototype's
    setter, which drops whatever is not an object. *)

Module Objects.
Import JS Explorer.

(** The property names of [Object.prototype]. *)
Definition inheritedNames : list string :=
  ["constructor"; "hasOwnProperty"; "isPrototypeOf"; "propertyIsEnumerable";
   "toLocaleString"; "toString"; "valueOf"; "__proto__";
   "__defineGetter__"; "__defineSetter__"; "__lookupGetter__"; "__lookupSetter__"].

(** [obj[k] = v] for a string or a number [v]: a new or changed property of
    the object's own, except under [__proto__], where nothing happens. *)
Definition assign {V} (k : string) (v : V) (obj : gmap string V) : gmap string V :=
  if String.eqb k "__proto__" then obj else <[k := v]> obj.

Section Upload.
Variable trim : string → string.
Variable Number : string → number.

Definition record (headers : list string) (line : string) : gmap string scalar :=
  let cells := split "," line in
  foldl (λ obj '(i, h), assign h (cell Number (trim (default "" (cells !! i)))) obj)
        ∅ (imap pair headers).

Definition handleFile (text : string) : list (gmap string scalar) :=
  let lines := List.filter Boolean (splitLines text) in
  if (length lines <? 2)%nat then []
  else
    let headers := trim <$> split "," (default "" (head lines)) in
    record headers <$> tail lines.

(** The header names and the trimmed text of the [j]-th cell of a line, as
    [handleFile] computes them. *)
Definition headersOf (text : string) : list string :=
  trim <$> split "," (default "" (head (linesOf text))).

Definition rawCell (line : string) (j : nat) : string :=
  trim (default "" (split "," line !! j)).
End Upload.

(** What a property of [counts] holds: a number or, once [+ 1] has met
    something that is not a number, a string, whose text is not kept. *)
Inductive tally : Type :=
| Tally (n : nat)
| Text.

(** What [counts[s]] finds: a property of the object's own, an inherited
    one (a function, or the prototype itself under [__proto__]), or
    nothing. *)
Inductive found : Type :=
| Own (v : tally)
| Inherited
| Undefined.

Definition readKey (counts : gmap string tally) (s : string) : found :=
  match counts !! s with
  | Some v => Own v
  | None => if bool_decide (s ∈ inheritedNames) then Inherited else Undefined
  end.

(** [(x ?? 0) + 1]: a number is incremented and [undefined] counts as 0;
    anything else is converted to a string, to which "1" is appended. *)
Definition plusOne (x : found) : tally :=
  match x with
  | Own (Tally n) => Tally (n + 1)
  | Undefined => Tally 1
  | Own Text | Inherited => Text
  end.

Section Counts.
Variable toLowerCase : string → string.
Variable String_ : number → string.

(** [String(r.status ?? 'unknown').toLowerCase()]; no property named
    [status] is inherited. *)
Definition statusOf (r : gmap string scalar) : string :=
  toLowerCase (toString String_ (default (VStr "unknown") (r !! "status"))).

Definition statusCounts (customRows : list (gmap string scalar)) : gmap string tally :=
  let counts : gmap string tally :=
    <["confirmed" := Tally 0]> (<["candidate" := Tally 0]>
      (<["false_positive" := Tally 0]> (<["unknown" := Tally 0]> ∅))) in
  if negb (usingUploaded customRows) then counts
  else foldl (λ counts r,
                let s := statusOf r in
                assign s (plusOne (readKey counts s)) counts)
             counts customRows.
End Counts.

End Objects.

(** ** The median over the machine's numbers

    [Explorer.med] once more, for any arithmetic: the numbers, the literals
    [0] and [2], the operations [+], [-] and [/] and the test [> 0] are
    parameters.  Over the exact rationals this is [Explorer.med]; over
    binary64 it is the median as the page computes it, with sums that round
    and overflow.  The sort keeps [a] before [b] unless [cmp(a, b) > 0]. *)

Module Machine.
Import JS.

Section Arithmetic.
Variable num : Type.
Variable zero two : num.
Variable add sub div : num → num → num.
Variable positive : num → bool.

Definition M (A : Type) : Type := gmap nat (list num) → A * gmap nat (list num).

Definition ret {A} (a : A) : M A := λ σ, (a, σ).

Definition bind {A B} (m : M A) (k : A → M B) : M B :=
  λ σ, let '(a, σ') := m σ in k a σ'.

Notation "x <- m ;; k" := (bind m (λ x, k))
  (at level 100, m at next level, right associativity).

Definition contents (a : nat) : M (list num) := λ σ, (default [] (σ !! a), σ).

Definition alloc (xs : list num) : M nat :=
  λ σ, let a := fresh (dom σ) in (a, <[a := xs]> σ).

(** [[...arr]] *)
Definition spread (arr : nat) : M nat := xs <- contents arr ;; alloc xs.

(** [arr.sort(cmp)] *)
Definition sort_ (cmp : num → num → num) (arr : nat) : M nat :=
  λ σ, (arr, alter (StableSort.sort (λ a b, negb (positive (cmp a b)))) arr σ).

(** The result is [None] where the source would yield [undefined] or
    [NaN] for want of an element, that is when an index falls outside the
    array. *)
Definition med (arr : nat) : M (option num) :=
  xs <- contents arr ;;
  if (length xs =? 0)%nat then ret (Some zero)
  else
    s <- (c <- spread arr ;; sort_ (λ a b, sub a b) c) ;;
    sv <- contents s ;;
    let m := (Z.of_nat (length sv) / 2)%Z in
    ret (if negb (Z.of_nat (length sv) mod 2 =? 0)%Z then index sv m
         else x ← index sv (m - 1)%Z; y ← index sv m; Some (div (add x y) two)).
End Arithmetic.

Import PrimFloat.

(** The median over binary64, the numbers of the language. *)
Definition med64 : nat → M float (option float) :=
  med float 0%float 2%float PrimFloat.add PrimFloat.sub PrimFloat.div
      (λ v, PrimFloat.ltb 0%float v).

(** The binary64 number nearest to 1e308, which is what [Number('1e308')]
    is. *)
Definition huge : float := 0x1.1ccf385ebc8ap+1023%float.

(** Four depths. *)
Definition depths : list float := [3; 1; 2; 10]%float.

End Machine.

(** ** The focus-feature projection of the importance ranking *)

Module Explainer.

(** The six presentation features, as the README's [forced] list has them. *)
Definition forced : list string :=
  ["koi_depth"; "koi_prad"; "koi_period"; "koi_teq"; "koi_duration"; "koi_model_snr"].

Inductive error : Type :=
| MissingFocusFeature (feature : string).

(** The place of a feature in the declaration order of the focus set. *)
Fixpoint position (focusFeatures : list string) (f : string) : nat :=
  match focusFeatures with
  | [] => 0
  | g :: rest => if String.eqb f g then 0 else S (position rest f)
  end.

(** [a] goes before [b]: more important first, a tie broken by the
    declaration order of the focus set. *)
Definition before (focusFeatures : list string) (a b : string * Q) : bool :=
  negb (Qle_bool (snd a) (snd b))
  || (Qle_bool (snd b) (snd a)
      && (position focusFeatures (fst a) <=? position focusFeatures (fst b))%nat).

Definition mentions (names : list string) (f : string) : bool :=
  existsb (String.eqb f) names.

(** Modelled from the spec: the Explainer's [focusRank], whose
    implementation (the Python pipeline) is not among the sources at hand.
    It "filters [fullRanking] to exactly the focus-feature set and re-sorts
    by importance descending; ties broken by the Schema's focus-feature
    declaration order", and it "fails with [MissingFocusFeature] if a
    declared focus feature was dropped".  The README's snippet
    [fi[fi['Feature'].isin(forced)].sort_values('Importance', ascending=False)]
    is the same filter and sort. *)
Definition focusRank (fullRanking : list (string * Q)) (focusFeatures : list string)
    : error + list (string * Q) :=
  match List.find (λ f, negb (mentions (fst <$> fullRanking) f)) focusFeatures with
  | Some f => inl (MissingFocusFeature f)
  | None =>
      inr (StableSort.sort (before focusFeatures)
             (List.filter (λ e, mentions focusFeatures (fst e)) fullRanking))
  end.

(** The spec's scenario: focus set A, B and a ranking of A, C and B. *)
Definition scenarioRanking : list (string * Q) := [("A", 0.4%Q); ("C", 0.3%Q); ("B", 0.1%Q)].

Definition scenarioFocus : list string := ["A"; "B"].

End Explainer.

(** ** The parameter form ([ParameterInput], in [src/components/Footer.tsx]) *)

Module ParameterInput.
Import JS.

(** What a parameter can be set to, [number | boolean]. *)
Inductive setting : Type :=
| SNum (n : number)
| SBool (b : bool).

(** The parameters the form has a slider and an input for. *)
Inductive field : Type :=
| signalToNoise
| transitDepth
| orbitalPeriod
| transitDuration
| planetRadius
| planetTemperature.

Definition keyOf (f : field) : string :=
  match f with
  | signalToNoise => "signalToNoise"
  | transitDepth => "transitDepth"
  | orbitalPeriod => "orbitalPeriod"
  | transitDuration => "transitDuration"
  | planetRadius => "planetRadius"
  | planetTemperature => "planetTemperature"
  end.

(** The initial state of [params]. *)
Definition initialParams : gmap string setting :=
  <["signalToNoise" := SNum (Fin 45)]> (<["transitDepth" := SNum (Fin 1200)]>
    (<["orbitalPeriod" := SNum (Fin 15)]> (<["transitDuration" := SNum (Fin 3.5)]>
      (<["planetRadius" := SNum (Fin 2.5)]> (<["planetTemperature" := SNum (Fin 850)]> ∅))))).

(** [setParams((prev) => ({ ...prev, [key]: value }))] *)
Definition updateParam (key : string) (value : setting) (prev : gmap string setting)
    : gmap string setting :=
  <[key := value]> prev.

(** What the user does: changes the slider or the input of a parameter,
    which calls [updateParam(key, parseFloat(e.target.value))], or submits
    the form, which calls [onPredict(params)]. *)
Inductive event : Type :=
| Change (f : field) (text : string)
| Submit.

(** The parameters, and what [onPredict] has been called with so far. *)
Record state : Type := {
  params : gmap string setting;
  predicted : list (gmap string setting)
}.

Section Form.
(** The built-in [parseFloat]; the form is defined for any behaviour of
    it. *)
Variable parseFloat : string → number.

Definition handle (st : state) (e : event) : state :=
  match e with
  | Change f text =>
      {| params := updateParam (keyOf f) (SNum (parseFloat text)) (params st);
         predicted := predicted st |}
  | Submit =>
      {| params := params st; predicted := (predicted st ++ [params st])%list |}
  end.

Definition run (events : list event) : state :=
  foldl handle {| params := initialParams; predicted := [] |} events.
End Form.

(** *** Readings used in the statements below *)

(** The text of the last change of a parameter, if it was changed. *)
Fixpoint lastChange (f : field) (events : list event) : option string :=
  match events with
  | [] => None
  | e :: rest =>
      match lastChange f rest with
      | Some t => Some t
      | None => match e with
                | Change g t => if String.eqb (keyOf g) (keyOf f) then Some t else None
                | Submit => None
                end
      end
  end.

(** The events before each [Submit] of a sequence that follows [seen]. *)
Fixpoint beforeSubmits (seen events : list event) : list (list event) :=
  match events with
  | [] => []
  | e :: rest =>
      match e with
      | Submit => seen :: beforeSubmits (seen ++ [e])%list rest
      | Change _ _ => beforeSubmits (seen ++ [e])%list rest
      end
  end.

End ParameterInput.

(** ** Navigation: the footer's links and the application's routes *)

Module Navigation.

Record NavLink : Type := {
  path : string;
  label : string
}.

(** [src/components/Footer.tsx] *)
Definition navLinks : list NavLink := [
  {| path := "/"; label := "Dashboard" |};
  {| path := "/specifications"; label := "Model Specifications" |};
  {| path := "/history"; label := "Prediction History" |};
  {| path := "/explorer"; label := "Data Explorer" |};
  {| path := "/learning"; label := "Learning Center" |}
].

(** [src/App.tsx]: the path of a route and the page it shows. *)
Record Route : Type := {
  routePath : string;
  element : string
}.

Definition routes : list Route := [
  {| routePath := "/"; element := "Dashboard" |};
  {| routePath := "/specifications"; element := "Specifications" |};
  {| routePath := "/history"; element := "History" |};
  {| routePath := "/explorer"; element := "Explorer" |};
  {| routePath := "/learning"; element := "Learning" |}
].

End Navigation.

(** * Properties *)

(** ** The per-mission tables *)

Module ModelsFacts.
Import Models.

(** Every entry of a table written as [list_to_map] of an explicit list is
    one of the listed pairs. *)
Ltac each_entry :=
  apply map_Forall_lookup; intros k v Hkv;
  apply elem_of_list_to_map_2 in Hkv; simpl in Hkv;
  repeat (apply elem_of_cons in Hkv as [Hkv | Hkv]; [injection Hkv as -> -> |]);
  [.. | by apply elem_of_nil in Hkv].

Ltac qcompare := unfold Qle, Qlt, Qeq; simpl; lia.

(** C2, as stated, fails: the accuracy the program exposes for K2 is 94.2,
    which is not in the interval [0,1]. *)
Lemma accuracy_outside_unit_interval :
  models !! "K2" = Some K2_info ∧
  modelSpecifications !! "K2" = Some K2_spec ∧
  ¬ (0 <= ModelInfo.accuracy K2_info <= 1)%Q ∧
  ¬ (0 <= Metrics.accuracy (ModelSpecification.metrics K2_spec) <= 1)%Q.
Proof.
  split; [by vm_compute |]. split; [by vm_compute |].
  split; intros [_ H]; revert H; qcompare.
Qed.

(** C2, amended: every accuracy figure the program exposes, in [models] and
    in the metrics of [modelSpecifications], is a percentage: it lies in the
    interval [0,100]. *)
Theorem accuracy_is_a_percentage :
  map_Forall (λ _ info, (0 <= ModelInfo.accuracy info <= 100)%Q) models ∧
  map_Forall (λ _ spec,
    (0 <= Metrics.accuracy (ModelSpecification.metrics spec) <= 100)%Q)
    modelSpecifications.
Proof.
  split; each_entry; split; qcompare.
Qed.

(** The two tables state the same accuracy for each mission, and the other
    metrics are fractions of one. *)
Lemma metrics_consistent :
  map_Forall (λ m spec,
    (ModelInfo.accuracy <$> models !! m)
      = Some (Metrics.accuracy (ModelSpecification.metrics spec)) ∧
    (0 <= Metrics.precision (ModelSpecification.metrics spec) <= 1)%Q ∧
    (0 <= Metrics.recall (ModelSpecification.metrics spec) <= 1)%Q ∧
    (0 <= Metrics.f1Score (ModelSpecification.metrics spec) <= 1)%Q)
    modelSpecifications.
Proof.
  each_entry; (split; [by vm_compute |]); repeat split; qcompare.
Qed.

(** C3, as stated, fails on K2: the matrix is 2 by 2, not 3 by 3, and its
    entries add up to 17000, not to a fifth of the 4004 stated rows. *)
Lemma confusion_matrix_not_three_by_three :
  modelSpecifications !! "K2" = Some K2_spec ∧
  ¬ square 3 (ModelSpecification.confusionMatrix K2_spec) ∧
  ¬ (inject_Z (total (ModelSpecification.confusionMatrix K2_spec))
       == 0.2 * inject_Z (statedRows (Dataset.size (ModelSpecification.dataset K2_spec))))%Q.
Proof.
  split; [by vm_compute |]. split.
  - intros [H _]. simpl in H. lia.
  - vm_compute. discriminate.
Qed.

(** C3, amended: every mission's confusion matrix is a square 2 by 2 matrix
    whose entries are non-negative integers. *)
Theorem confusion_matrix_two_by_two :
  map_Forall (λ _ spec,
    square 2 (ModelSpecification.confusionMatrix spec) ∧
    Forall (λ e, (0 ≤ e)%Z) (entries (ModelSpecification.confusionMatrix spec)))
    modelSpecifications.
Proof.
  each_entry; (split; [split; [done | by repeat constructor] |]);
    simpl; repeat constructor; lia.
Qed.

(** In no mission do the entries add up to the held-out fifth of the stated
    rows; they exceed the whole stated data set. *)
Lemma confusion_matrix_total_exceeds_rows :
  map_Forall (λ _ spec,
    (statedRows (Dataset.size (ModelSpecification.dataset spec))
       < total (ModelSpecification.confusionMatrix spec))%Z)
    modelSpecifications.
Proof. each_entry; vm_compute; reflexivity. Qed.

(** C4: the focus set is the six features koi_model_snr, koi_depth,
    koi_prad, koi_teq, koi_duration, koi_period, without repetition; the
    README's [forced] list is this set; every mission's feature labels
    name exactly these columns, in this order; and the Explorer's required
    columns are these six followed by the status column. *)
Theorem focus_features_agree :
  let six := ["koi_model_snr"; "koi_depth"; "koi_prad"; "koi_teq";
              "koi_duration"; "koi_period"] in
  length six = 6%nat ∧ NoDup six ∧
  Explainer.forced ≡ₚ six ∧
  map_Forall (λ _ spec,
    featureName <$> Dataset.features (ModelSpecification.dataset spec) = six)
    modelSpecifications ∧
  Explorer.requiredCols = (six ++ ["status"])%list.
Proof.
  intros six. split; [done |]. split; [by apply (bool_decide_unpack _); vm_compute |].
  split; [| split; [each_entry; reflexivity | reflexivity]].
  unfold Explainer.forced, six.
  apply (bool_decide_unpack _). by vm_compute.
Qed.

End ModelsFacts.

(** ** Stable sorting *)

Module StableSortFacts.
Import StableSort.

Section Facts.
Context {A : Type} (before : A → A → bool).

Lemma insert_Permutation x l : insert before x l ≡ₚ x :: l.
Proof.
  induction l as [| y l IH]; simpl; [done |].
  destruct (before x y); [done |].
  rewrite IH. apply Permutation_swap.
Qed.

Lemma sort_Permutation l : sort before l ≡ₚ l.
Proof.
  induction l as [| x l IH]; simpl; [done |].
  by rewrite insert_Permutation, IH.
Qed.

Lemma sort_length l : length (sort before l) = length l.
Proof. apply Permutation_length, sort_Permutation. Qed.

(** The arrangement is sorted for any relation that [before] decides in
    the sense below: what [before] accepts is in order, what it refuses
    is in order the other way round. *)
Context (R : relation A).
Hypothesis before_sound : ∀ x y, before x y = true → R x y.
Hypothesis before_total : ∀ x y, before x y = false → R y x.

Lemma insert_HdRel z x l : R z x → HdRel R z l → HdRel R z (insert before x l).
Proof.
  intros Hzx Hzl. destruct l as [| y l]; simpl; [by constructor |].
  destruct (before x y); constructor; [done |].
  by apply HdRel_inv in Hzl.
Qed.

Lemma insert_Sorted x l : Sorted R l → Sorted R (insert before x l).
Proof.
  induction 1 as [| y l Hl IH Hy]; simpl; [by repeat constructor |].
  destruct (before x y) eqn:Hxy.
  - constructor; [by constructor |]. constructor. by apply before_sound.
  - constructor; [done |]. apply insert_HdRel; [by apply before_total | done].
Qed.

Lemma sort_Sorted l : Sorted R (sort before l).
Proof.
  induction l as [| x l IH]; simpl; [constructor |]. by apply insert_Sorted.
Qed.
End Facts.

Section Among.
Context {A : Type} (before : A → A → bool) (R : relation A).

(** The arrangement depends on [before] only through its values. *)
Lemma sort_ext (before' : A → A → bool) l :
  (∀ x y, before x y = before' x y) → sort before l = sort before' l.
Proof.
  intros H. induction l as [| x l IH]; [done |]. simpl. rewrite IH.
  generalize (sort before' l). intros s. induction s as [| y s IHs]; [done |].
  simpl. by rewrite H, IHs.
Qed.

(** Sortedness again, when [before] decides [R] on the elements of the
    list only. *)
Lemma insert_Sorted_among x l :
  (∀ y, y ∈ l → before x y = true → R x y) →
  (∀ y, y ∈ l → before x y = false → R y x) →
  Sorted R l → Sorted R (insert before x l).
Proof.
  intros Hs Ht Hl. induction Hl as [| y l Hl IH Hy]; simpl; [by repeat constructor |].
  destruct (before x y) eqn:Hxy.
  - constructor; [by constructor |]. constructor. apply Hs; [apply list_elem_of_here | done].
  - constructor.
    + apply IH; intros z Hz; [apply Hs | apply Ht]; by apply list_elem_of_further.
    + apply insert_HdRel; [| done]. apply Ht; [apply list_elem_of_here | done].
Qed.

Lemma sort_Sorted_among l :
  (∀ x y, x ∈ l → y ∈ l → before x y = true → R x y) →
  (∀ x y, x ∈ l → y ∈ l → before x y = false → R y x) →
  Sorted R (sort before l).
Proof.
  induction l as [| x l IH]; intros Hs Ht; simpl; [constructor |].
  assert (∀ y, y ∈ sort before l → y ∈ l) as Hin.
  { intros y. by rewrite (sort_Permutation before l). }
  apply insert_Sorted_among.
  - intros y Hy. apply Hs; [apply list_elem_of_here | by apply list_elem_of_further, Hin].
  - intros y Hy. apply Ht; [apply list_elem_of_here | by apply list_elem_of_further, Hin].
  - apply IH; intros y z Hy Hz; [apply Hs | apply Ht]; by apply list_elem_of_further.
Qed.
End Among.

End StableSortFacts.

(** ** The Explorer *)

Module ExplorerFacts.
Import JS Explorer.

(** *** The median of the summary *)

Lemma Array_sort_Permutation {A} (cmp : A → A → Q) xs : Array_sort cmp xs ≡ₚ xs.
Proof. apply StableSortFacts.sort_Permutation. Qed.

(** With the comparator [(a, b) => a - b] the sorted copy is in
    non-decreasing order. *)
Lemma Array_sort_ascending xs : Sorted Qle (Array_sort (λ a b, a - b)%Q xs).
Proof.
  assert (∀ x y : Q, Qle_bool (x - y) 0 = true ↔ (x <= y)%Q) as Hcmp.
  { intros x y. rewrite Qle_bool_iff.
    rewrite (Qle_minus_iff (x - y) 0), (Qle_minus_iff x y).
    assert (0 + - (x - y) == y + - x)%Q as -> by ring. done. }
  apply StableSortFacts.sort_Sorted; intros x y H.
  - by apply Hcmp.
  - apply Qlt_le_weak, Qnot_le_lt. intros Hle%Hcmp. congruence.
Qed.

(** [med] on an array of the store: what it returns and what it leaves. *)
Lemma med_run (σ : gmap nat (list Q)) (arr : nat) (xs : list Q) :
  σ !! arr = Some xs →
  med arr σ =
    if (length xs =? 0)%nat then (Some 0%Q, σ)
    else
      let sv := Array_sort (λ a b, a - b)%Q xs in
      let m := (Z.of_nat (length sv) / 2)%Z in
      (if negb (Z.of_nat (length sv) mod 2 =? 0)%Z then index sv m
       else x ← index sv (m - 1)%Z; y ← index sv m; Some ((x + y) / 2)%Q,
       <[fresh (dom σ) := sv]> σ).
Proof.
  intros Harr. unfold med, bind, contents at 1. rewrite Harr. simpl.
  destruct (length xs =? 0)%nat; [done |].
  unfold spread, bind, contents, alloc, sort_, ret. rewrite Harr. simpl.
  rewrite alter_insert_eq, lookup_insert_eq. done.
Qed.

Lemma index_of_nat {A} (xs : list A) (k : nat) : index xs (Z.of_nat k) = xs !! k.
Proof.
  unfold index. destruct (Z.ltb_spec (Z.of_nat k) 0); [lia |]. by rewrite Nat2Z.id.
Qed.

(** *** The upload *)

Section Parsing.
Variable Number : string → number.

Lemma record_snoc hs h line :
  record Number (hs ++ [h]) line
  = <[h := cell Number (rawCell line (length hs))]> (record Number hs line).
Proof.
  unfold record. rewrite imap_app, foldl_app. simpl.
  by rewrite Nat.add_0_r.
Qed.

Lemma record_dom hs line : dom (record Number hs line) = list_to_set hs.
Proof.
  induction hs as [| h hs IH] using rev_ind; [done |].
  rewrite record_snoc, dom_insert_L, IH, list_to_set_app_L. simpl.
  by rewrite (right_id_L ∅ (∪)), (comm_L (∪)).
Qed.

(** A field holds the cell under the last header of that name. *)
Lemma record_lookup hs line j h :
  hs !! j = Some h → (∀ j', (j < j')%nat → hs !! j' ≠ Some h) →
  record Number hs line !! h = Some (cell Number (rawCell line j)).
Proof.
  revert j. induction hs as [| x hs IH] using rev_ind; intros j Hj Hlast; [done |].
  rewrite record_snoc.
  destruct (decide (j = length hs)) as [-> | Hne].
  - rewrite lookup_app_r, Nat.sub_diag in Hj by lia. injection Hj as ->.
    by rewrite lookup_insert_eq.
  - assert (j < length hs)%nat as Hlt.
    { apply lookup_lt_Some in Hj. rewrite length_app in Hj. simpl in Hj. lia. }
    rewrite lookup_app_l in Hj by done.
    assert (x ≠ h) as Hx.
    { intros ->. apply (Hlast (length hs)); [lia |].
      by rewrite lookup_app_r, Nat.sub_diag by lia. }
    rewrite lookup_insert_ne by done. apply IH; [done |].
    intros j' Hj' Hin. apply (Hlast j'); [done |].
    rewrite lookup_app_l; [done |]. by apply lookup_lt_Some in Hin.
Qed.

Lemma handleFile_short text :
  (length (linesOf text) < 2)%nat → handleFile Number text = [].
Proof.
  intros H. unfold handleFile. fold (linesOf text).
  destruct (Nat.ltb_spec (length (linesOf text)) 2); [done | lia].
Qed.

Lemma handleFile_rows text :
  (2 ≤ length (linesOf text))%nat →
  handleFile Number text = record Number (headersOf text) <$> tail (linesOf text).
Proof.
  intros H. unfold handleFile. fold (linesOf text).
  destruct (Nat.ltb_spec (length (linesOf text)) 2); [lia | done].
Qed.

End Parsing.

(** C5, as stated, fails: in the upload [mixedColumn] the depth column
    holds a number in the first record and a string in the second, each
    cell having been classified on its own. *)
Lemma column_type_varies_by_cell :
  ¬ columnTyped (handleFile StringToNumber mixedColumn) "koi_depth".
Proof.
  intros H.
  pose (r1 := record StringToNumber ["koi_depth"; "status"] "120.5,confirmed").
  pose (r2 := record StringToNumber ["koi_depth"; "status"] "n/a,candidate").
  assert (handleFile StringToNumber mixedColumn = [r1; r2]) as E by (by vm_compute).
  specialize (H r1 r2 (VNum (Fin (241 # 2))) (VStr "n/a")).
  rewrite E in H. discriminate H.
  - apply list_elem_of_here.
  - apply list_elem_of_further, list_elem_of_here.
  - by vm_compute.
  - by vm_compute.
Qed.

(** *** The status counts *)

Section Status.
Variable String_ : number → string.

(** The body of the counting loop. *)
Local Abbreviation step := (λ (counts : gmap string nat) (r : gmap string scalar),
  <[statusOf String_ r := (default 0 (counts !! statusOf String_ r) + 1)%nat]> counts).

Local Abbreviation initial :=
  (<["confirmed" := 0%nat]> (<["candidate" := 0%nat]>
     (<["false_positive" := 0%nat]> (<["unknown" := 0%nat]> (∅ : gmap string nat))))).

Lemma statusCounts_fold rows : statusCounts String_ rows = foldl step initial rows.
Proof. unfold statusCounts, usingUploaded. by destruct rows. Qed.

Lemma statusOf_ext (r1 r2 : gmap string scalar) :
  r1 !! "status" = r2 !! "status" → statusOf String_ r1 = statusOf String_ r2.
Proof. unfold statusOf. by intros ->. Qed.

Lemma fold_ext (c : gmap string nat) (rows1 rows2 : list (gmap string scalar)) :
  (λ r : gmap string scalar, r !! "status") <$> rows1
    = (λ r : gmap string scalar, r !! "status") <$> rows2 →
  foldl step c rows1 = foldl step c rows2.
Proof.
  revert c rows2. induction rows1 as [| r1 rows1 IH]; intros c [| r2 rows2] H;
    simplify_eq/=; [done |].
  rewrite (statusOf_ext r1 r2) by done. by apply IH.
Qed.

(** C7: two uploads with the same number of rows and, row by row, the
    same status field have the same status counts and the same status
    distribution, whatever their other columns hold. *)
Theorem statusCounts_depend_on_status_only (rows1 rows2 : list (gmap string scalar)) :
  (λ r : gmap string scalar, r !! "status") <$> rows1
    = (λ r : gmap string scalar, r !! "status") <$> rows2 →
  statusCounts String_ rows1 = statusCounts String_ rows2 ∧
  distributionData String_ rows1 = distributionData String_ rows2.
Proof.
  intros H.
  assert (statusCounts String_ rows1 = statusCounts String_ rows2) as E.
  { rewrite !statusCounts_fold. by apply fold_ext. }
  split; [done |].
  unfold distributionData, usingUploaded. rewrite E.
  apply (f_equal length) in H. rewrite !length_fmap in H. by rewrite H.
Qed.

Lemma fold_lookup (c : gmap string nat) rows k :
  default 0%nat (foldl step c rows !! k)
  = (default 0 (c !! k) + length (filter (λ r, statusOf String_ r = k) rows))%nat.
Proof.
  revert c. induction rows as [| r rows IH]; intros c; simpl; [lia |].
  rewrite IH, filter_cons. destruct (decide (statusOf String_ r = k)) as [-> | Hne].
  - rewrite lookup_insert_eq. simpl. lia.
  - by rewrite lookup_insert_ne.
Qed.

Lemma statusCounts_lookup rows k :
  default 0%nat (statusCounts String_ rows !! k)
  = length (filter (λ r, statusOf String_ r = k) rows).
Proof.
  rewrite statusCounts_fold, fold_lookup.
  assert (default 0%nat (initial !! k) = 0%nat) as ->; [| done].
  destruct (decide (k = "confirmed")) as [-> | ?]; [by vm_compute |].
  destruct (decide (k = "candidate")) as [-> | ?]; [by vm_compute |].
  destruct (decide (k = "false_positive")) as [-> | ?]; [by vm_compute |].
  destruct (decide (k = "unknown")) as [-> | ?]; [by vm_compute |].
  rewrite !lookup_insert_ne by done. by rewrite lookup_empty.
Qed.

Lemma chartTotal_positive (data : list Distribution) :
  chartTotal (List.filter (λ d, (0 <? value d)%nat) data) = chartTotal data.
Proof.
  unfold chartTotal. induction data as [| d data IH]; [done |].
  cbn [List.filter]. destruct (Nat.ltb_spec 0 (value d));
    rewrite ?fmap_cons; cbn [sum_list sum_list_with id]; lia.
Qed.

(** The rows with a known status are those with the first, the second,
    the third or the fourth of the known statuses. *)
Lemma known_rows (rows : list (gmap string scalar)) :
  length (filter (λ r, statusOf String_ r ∈ knownStatuses) rows)
  = (length (filter (λ r, statusOf String_ r = "confirmed") rows)
     + length (filter (λ r, statusOf String_ r = "candidate") rows)
     + length (filter (λ r, statusOf String_ r = "false_positive") rows)
     + length (filter (λ r, statusOf String_ r = "unknown") rows))%nat.
Proof.
  induction rows as [| r rows IH]; [done |].
  rewrite !filter_cons.
  destruct (decide (statusOf String_ r ∈ knownStatuses)) as [Hin | Hout].
  - unfold knownStatuses in Hin.
    repeat (apply elem_of_cons in Hin as [-> | Hin];
            [repeat case_decide; try done; rewrite ?length_cons; lia |]).
    by apply elem_of_nil in Hin.
  - repeat case_decide; simpl; try lia;
      exfalso; apply Hout; unfold knownStatuses;
      match goal with H : statusOf _ _ = _ |- _ => rewrite H end;
      apply (bool_decide_unpack _); by vm_compute.
Qed.

Lemma distributionData_total rows :
  chartTotal (distributionData String_ rows)
  = length (filter (λ r, statusOf String_ r ∈ knownStatuses) rows).
Proof.
  unfold distributionData, usingUploaded.
  destruct rows as [| r rows]; [done |].
  change (negb (0 <? length (r :: rows))%nat) with false. cbv iota.
  rewrite chartTotal_positive, known_rows. unfold chartTotal. simpl.
  rewrite !statusCounts_lookup. lia.
Qed.
End Status.

Lemma statusCounts_depend_on_status_only_witness :
  let rowsA := handleFile StringToNumber uploadA in
  let rowsB := handleFile StringToNumber uploadB in
  (λ r : gmap string scalar, r !! "status") <$> rowsA
    = (λ r : gmap string scalar, r !! "status") <$> rowsB ∧
  statusCounts NumberToString rowsA = statusCounts NumberToString rowsB ∧
  distributionData NumberToString rowsA = distributionData NumberToString rowsB.
Proof.
  intros rowsA rowsB.
  assert ((λ r : gmap string scalar, r !! "status") <$> rowsA
          = (λ r : gmap string scalar, r !! "status") <$> rowsB) as H
    by (vm_compute; reflexivity).
  split; [exact H |].
  exact (statusCounts_depend_on_status_only NumberToString rowsA rowsB H).
Defined.

(** *** The histogram of orbital periods *)

Lemma Qle_bool_false (a b : Q) : Qle_bool a b = false → (b < a)%Q.
Proof.
  intros H. apply Qnot_le_lt. intros Hle%Qle_bool_iff. congruence.
Qed.

(** Case analysis on every comparison of rationals in the goal. *)
Ltac qcases :=
  repeat match goal with
         | |- context [Qle_bool ?a ?b] =>
             let H := fresh "H" in
             destruct (Qle_bool a b) eqn:H;
             [apply Qle_bool_iff in H | apply Qle_bool_false in H];
             unfold Qle, Qlt in H; simpl in H
         end.

(** X9: the five bins are disjoint and cover the non-negative finite
    values: such a value is in exactly one bin, a negative one in none. *)
Lemma bins_partition (q : Q) :
  length (List.filter (inBin (Fin q)) bins) = if Qle_bool 0 q then 1%nat else 0%nat.
Proof.
  unfold bins, inBin, ge, lt. cbn [List.filter min max].
  qcases; simpl; solve [done | lia].
Qed.

Lemma findIndex_bins (q : Q) :
  if Qle_bool 0 q
  then (0 ≤ findIndex (inBin (Fin q)) bins < 5)%Z
  else findIndex (inBin (Fin q)) bins = (-1)%Z.
Proof.
  unfold bins, inBin, ge, lt. cbn [findIndex min max].
  qcases; simpl; solve [done | lia].
Qed.

Lemma bump_total (idx : Z) (counts : list BinCount) :
  (0 ≤ idx < Z.of_nat (length counts))%Z →
  binsTotal (bump idx counts) = S (binsTotal counts) ∧
  length (bump idx counts) = length counts.
Proof.
  intros H. unfold bump, binsTotal. split; [| apply length_alter].
  assert (Z.to_nat idx < length counts)%nat as Hn by lia.
  clear H. revert Hn. generalize (Z.to_nat idx) as n.
  induction counts as [| c counts IH]; intros [| n] Hn; simpl in Hn; try lia.
  - simpl. lia.
  - specialize (IH n ltac:(lia)).
    change (alter ?f (S n) (c :: counts)) with (c :: alter f n counts).
    rewrite !fmap_cons. cbn [sum_list sum_list_with id]. rewrite IH. lia.
Qed.

Section Orbital.
Variable Number : string → number.

Local Abbreviation step := (λ (counts : list BinCount) (r : gmap string scalar),
  let val := toNumber Number (r !! "koi_period") in
  if isFinite val then
    let idx := findIndex (inBin val) bins in
    if (0 <=? idx)%Z then bump idx counts else counts
  else counts).

Lemma fold_total (counts : list BinCount) (rows : list (gmap string scalar)) :
  length counts = 5%nat →
  binsTotal (foldl step counts rows)
  = (binsTotal counts + length (filter (counted Number) rows))%nat.
Proof.
  revert counts. induction rows as [| r rows IH]; intros counts Hlen; [simpl; lia |].
  rewrite filter_cons. cbn [foldl]. cbv zeta.
  destruct (decide (counted Number r)) as [Hc | Hc]; unfold counted in Hc;
    destruct (toNumber Number (r !! "koi_period")) as [| neg | q];
    cbn [isFinite]; try done; try (by apply IH).
  - pose proof (findIndex_bins q) as Hidx. rewrite Hc in Hidx.
    destruct (Z.leb_spec 0 (findIndex (inBin (Fin q)) bins)); [| lia].
    destruct (bump_total (findIndex (inBin (Fin q)) bins) counts) as [Ht Hl]; [lia |].
    rewrite IH by lia. rewrite Ht. simpl. lia.
  - pose proof (findIndex_bins q) as Hidx.
    destruct (Qle_bool 0 q); [done |]. rewrite Hidx.
    change (0 <=? -1)%Z with false. cbv iota. by apply IH.
Qed.

(** X11: the bars of the histogram add up to the number of rows whose
    period, as a number, is finite and not negative. *)
Lemma orbitalData_total (rows : list (gmap string scalar)) :
  binsTotal (orbitalData Number rows) = length (filter (counted Number) rows).
Proof.
  unfold orbitalData, usingUploaded. destruct rows as [| r rows]; [done |].
  change (negb (0 <? length (r :: rows))%nat) with false. cbv iota.
  by rewrite fold_total.
Qed.
End Orbital.

(** Converting a stored cell again gives [Number] of its text, so the one
    cell that is stored as text and still counted as a finite number is the
    empty one. *)
Lemma toNumber_cell (Number : string → number) (raw : string) :
  toNumber Number (Some (cell Number raw)) = Number raw.
Proof. unfold cell. by destruct (negb (String.eqb raw "") && negb (isNaN (Number raw))). Qed.

(** X12: a field that is stored as text and still converts to a finite
    number, as the histogram and the summary convert it, comes from an
    empty cell. *)
Lemma text_cell_counted_is_empty (Number : string → number) (raw : string) :
  isNumber (cell Number raw) = false →
  isFinite (toNumber Number (Some (cell Number raw))) = true →
  raw = "".
Proof.
  rewrite toNumber_cell. unfold cell.
  destruct (String.eqb_spec raw "") as [-> | Hne]; [done |].
  destruct (Number raw); simpl; congruence.
Qed.

Lemma text_cell_counted_is_empty_witness :
  isNumber (cell StringToNumber "") = false ∧
  isFinite (toNumber StringToNumber (Some (cell StringToNumber ""))) = true ∧
  "" = "".
Proof.
  assert (isNumber (cell StringToNumber "") = false) as H1 by reflexivity.
  assert (isFinite (toNumber StringToNumber (Some (cell StringToNumber ""))) = true) as H2
    by reflexivity.
  split; [exact H1 |]. split; [exact H2 |].
  exact (text_cell_counted_is_empty StringToNumber "" H1 H2).
Defined.

(** C9 at the upload [emptyPeriod]: the one record holds the empty string,
    not a number, as its period, and the histogram counts it in the first
    bin, because [Number] of the empty string is 0. *)
Lemma orbitalData_counts_empty_period :
  let rows := handleFile StringToNumber emptyPeriod in
  head rows ≫= (.!! "koi_period") = Some (VStr "") ∧
  orbitalData StringToNumber rows =
    [ {| range := "0-10d"; count := 1 |};
      {| range := "10-50d"; count := 0 |};
      {| range := "50-100d"; count := 0 |};
      {| range := "100-200d"; count := 0 |};
      {| range := "200+d"; count := 0 |} ].
Proof. split; by vm_compute. Qed.

End ExplorerFacts.

(** ** The focus-feature projection *)

Module ExplainerFacts.
Import Explainer.

Lemma mentions_spec (names : list string) (f : string) :
  mentions names f = true ↔ f ∈ names.
Proof.
  unfold mentions. rewrite existsb_exists. split.
  - intros (g & Hg & ->%String.eqb_eq). by apply list_elem_of_In.
  - intros Hf. exists f. split; [by apply list_elem_of_In | apply String.eqb_refl].
Qed.

(** What [before] accepts is in non-increasing order of importance, and
    what it refuses is in that order the other way round. *)
Lemma before_sound focus (a b : string * Q) :
  before focus a b = true → (snd b <= snd a)%Q.
Proof.
  unfold before. intros [H | [H _]%andb_prop]%orb_prop.
  - apply Qlt_le_weak, Qnot_le_lt. intros Hle%Qle_bool_iff.
    rewrite Hle in H. done.
  - by apply Qle_bool_iff.
Qed.

Lemma before_total focus (a b : string * Q) :
  before focus a b = false → (snd a <= snd b)%Q.
Proof.
  unfold before. intros [H _]%orb_false_elim.
  apply Qle_bool_iff. by destruct (Qle_bool a.2 b.2).
Qed.

Lemma focusRank_found fullRanking focusFeatures :
  focusFeatures ⊆ fullRanking.*1 →
  focusRank fullRanking focusFeatures
  = inr (StableSort.sort (before focusFeatures)
           (List.filter (λ e, mentions focusFeatures (fst e)) fullRanking)).
Proof.
  intros Hsub. unfold focusRank.
  destruct (List.find _ focusFeatures) as [f |] eqn:Hfind; [| done].
  apply find_some in Hfind as [Hin Hneg]. apply list_elem_of_In, Hsub in Hin.
  apply mentions_spec in Hin. by rewrite Hin in Hneg.
Qed.

(** A focus feature that the ranking lacks is reported, not dropped. *)
Lemma focusRank_missing fullRanking focusFeatures f :
  f ∈ focusFeatures → f ∉ fullRanking.*1 →
  ∃ g, focusRank fullRanking focusFeatures = inl (MissingFocusFeature g) ∧
       g ∈ focusFeatures ∧ g ∉ fullRanking.*1.
Proof.
  intros Hf Hnot. unfold focusRank.
  destruct (List.find _ focusFeatures) as [g |] eqn:Hfind.
  - apply find_some in Hfind as [Hin Hneg]. exists g. split; [done |].
    split; [by apply list_elem_of_In |].
    intros Hg%mentions_spec. by rewrite Hg in Hneg.
  - apply list_elem_of_In in Hf. apply (find_none _ _ Hfind) in Hf.
    apply negb_false_iff, mentions_spec in Hf. done.
Qed.

Lemma filter_elem_of (p : string * Q → bool) l e :
  e ∈ List.filter p l ↔ e ∈ l ∧ p e = true.
Proof. rewrite !list_elem_of_In. apply filter_In. Qed.

Lemma filter_NoDup_fst (p : string * Q → bool) (l : list (string * Q)) :
  NoDup l.*1 → NoDup (List.filter p l).*1.
Proof.
  induction l as [| e l IH]; simpl; [done |].
  intros [Hnot Hl]%NoDup_cons. destruct (p e); [| by apply IH].
  rewrite fmap_cons. apply NoDup_cons. split; [| by apply IH].
  intros (e' & He' & [Hin _]%filter_elem_of)%list_elem_of_fmap.
  apply Hnot, list_elem_of_fmap. by exists e'.
Qed.

(** Whatever [focusRank] returns is the kept entries of the full ranking,
    rearranged: nothing is added, dropped or recomputed. *)
Lemma focusRank_result fullRanking focusFeatures out :
  focusRank fullRanking focusFeatures = inr out →
  focusFeatures ⊆ fullRanking.*1 ∧
  out ≡ₚ List.filter (λ e, mentions focusFeatures (fst e)) fullRanking ∧
  Sorted (λ a b, (snd b <= snd a)%Q) out.
Proof.
  unfold focusRank.
  destruct (List.find _ focusFeatures) as [g |] eqn:Hfind; [done |].
  intros [= <-]. split; [| split].
  - intros f Hf%list_elem_of_In. apply (find_none _ _ Hfind) in Hf.
    by apply negb_false_iff, mentions_spec in Hf.
  - apply StableSortFacts.sort_Permutation.
  - apply StableSortFacts.sort_Sorted; [apply before_sound | apply before_total].
Qed.

(** C1: for a ranking with one entry per feature that has every focus
    feature, [focusRank] returns a rearrangement of the ranking's entries
    for the focus features: the features of the result are exactly the
    focus features; each entry of the result is an entry of the full
    ranking, so its importance is the value the ranking gives that feature,
    unchanged; and the importances do not increase along the result. *)
Theorem focusRank_sorted_projection (fullRanking : list (string * Q))
    (focusFeatures : list string) :
  NoDup fullRanking.*1 → NoDup focusFeatures → focusFeatures ⊆ fullRanking.*1 →
  ∃ out, focusRank fullRanking focusFeatures = inr out ∧
    out ≡ₚ List.filter (λ e, mentions focusFeatures (fst e)) fullRanking ∧
    out.*1 ≡ₚ focusFeatures ∧
    (∀ f v, (f, v) ∈ out → (f, v) ∈ fullRanking) ∧
    Sorted (λ a b, (snd b <= snd a)%Q) out.
Proof.
  intros Hfull Hfocus Hsub. eexists. split; [by apply focusRank_found |].
  set (kept := List.filter (λ e, mentions focusFeatures (fst e)) fullRanking).
  pose proof (StableSortFacts.sort_Permutation (before focusFeatures) kept) as Hperm.
  split; [done |]. split; [| split].
  - rewrite Hperm. apply NoDup_Permutation; [by apply filter_NoDup_fst | done |].
    intros f. rewrite list_elem_of_fmap. split.
    + intros ([g v] & -> & [_ Hg]%filter_elem_of). by apply mentions_spec.
    + intros Hf. pose proof (Hsub f Hf) as Hin.
      apply list_elem_of_fmap in Hin as ([g v] & -> & Hin).
      exists (g, v). split; [done |]. apply filter_elem_of. split; [done |].
      by apply mentions_spec.
  - intros f v Hin. rewrite Hperm in Hin. by apply filter_elem_of in Hin as [Hin _].
  - apply StableSortFacts.sort_Sorted.
    + apply before_sound.
    + apply before_total.
Qed.

Lemma focusRank_sorted_projection_witness :
  NoDup scenarioRanking.*1 ∧ NoDup scenarioFocus ∧ scenarioFocus ⊆ scenarioRanking.*1 ∧
  ∃ out, focusRank scenarioRanking scenarioFocus = inr out ∧
    out ≡ₚ List.filter (λ e, mentions scenarioFocus (fst e)) scenarioRanking ∧
    out.*1 ≡ₚ scenarioFocus ∧
    (∀ f v, (f, v) ∈ out → (f, v) ∈ scenarioRanking) ∧
    Sorted (λ a b, (snd b <= snd a)%Q) out.
Proof.
  assert (NoDup scenarioRanking.*1) as H1 by (apply (bool_decide_unpack _); vm_compute; exact I).
  assert (NoDup scenarioFocus) as H2 by (apply (bool_decide_unpack _); vm_compute; exact I).
  assert (scenarioFocus ⊆ scenarioRanking.*1) as H3
    by (apply (bool_decide_unpack _); vm_compute; exact I).
  split; [exact H1 |]. split; [exact H2 |]. split; [exact H3 |].
  exact (focusRank_sorted_projection scenarioRanking scenarioFocus H1 H2 H3).
Defined.

(** The spec's scenario, evaluated. *)
Example focusRank_scenario :
  focusRank scenarioRanking scenarioFocus = inr [("A", 0.4%Q); ("B", 0.1%Q)].
Proof. reflexivity. Qed.

End ExplainerFacts.

(** ** The upload, further *)

Module UploadFacts.
Import JS Explorer ExplorerFacts.

Lemma append_cons c s t : String c s +:+ t = String c (s +:+ t).
Proof. reflexivity. Qed.

Lemma has_app c s t : has c (s +:+ t) = has c s || has c t.
Proof.
  induction s as [| d s IH]; [done |].
  rewrite append_cons. simpl. rewrite IH. by rewrite orb_assoc.
Qed.

Lemma split_cons sep c s :
  split sep (String c s) =
    if Ascii.eqb c sep then "" :: split sep s
    else match split sep s with
         | p :: ps => String c p :: ps
         | [] => [String c ""]
         end.
Proof. reflexivity. Qed.

Lemma split_app sep p rest :
  has sep p = false → split sep (p +:+ String sep rest) = p :: split sep rest.
Proof.
  induction p as [| c p IH]; intros H.
  - change ("" +:+ String sep rest) with (String sep rest).
    rewrite split_cons. by rewrite Ascii.eqb_refl.
  - simpl in H. apply orb_false_elim in H as [Hc Hp].
    rewrite append_cons, split_cons, Hc, IH by done. done.
Qed.

Lemma split_plain sep p : has sep p = false → split sep p = [p].
Proof.
  induction p as [| c p IH]; intros H; [done |].
  simpl in H. apply orb_false_elim in H as [Hc Hp].
  rewrite split_cons, Hc, IH by done. done.
Qed.

Lemma joinWith_cons sep p q ps :
  joinWith sep (p :: q :: ps) = p +:+ sep +:+ joinWith sep (q :: ps).
Proof. reflexivity. Qed.

Lemma split_join (cells : list string) :
  cells ≠ [] → Forall (λ c, has "," c = false) cells →
  split "," (joinWith "," cells) = cells.
Proof.
  induction cells as [| c cells IH]; [done |]. intros _ [Hc Hcells]%Forall_cons.
  destruct cells as [| d cells]; [by apply split_plain |].
  rewrite joinWith_cons.
  change ("," +:+ ?x) with (String "," x).
  rewrite split_app by done. f_equal. by apply IH.
Qed.

Lemma splitLines_cons c s :
  c ≠ "013"%char →
  splitLines (String c s) =
    if Ascii.eqb c "010" then "" :: splitLines s
    else match splitLines s with
         | p :: ps => String c p :: ps
         | [] => [String c ""]
         end.
Proof.
  intros Hc. destruct c as [[] [] [] [] [] [] [] []]; try done.
Qed.


Lemma has_false_cons c d s : has c (String d s) = false → d ≠ c ∧ has c s = false.
Proof.
  simpl. intros [Hd Hs]%orb_false_elim. split; [| done].
  intros ->. by rewrite Ascii.eqb_refl in Hd.
Qed.

(** A line without line feed or carriage return, then a separator. *)
Lemma splitLines_app_LF p rest :
  plainLine p → splitLines (p +:+ LF +:+ rest) = p :: splitLines rest.
Proof.
  induction p as [| c p IH]; intros [Hlf Hcr]; [done |].
  apply has_false_cons in Hlf as [Hc1 Hlf]. apply has_false_cons in Hcr as [Hc2 Hcr].
  rewrite append_cons, splitLines_cons by done.
  rewrite IH by done.
  destruct (Ascii.eqb_spec c "010"); done.
Qed.

Lemma splitLines_app_CRLF p rest :
  plainLine p → splitLines (p +:+ CRLF +:+ rest) = p :: splitLines rest.
Proof.
  induction p as [| c p IH]; intros [Hlf Hcr]; [done |].
  apply has_false_cons in Hlf as [Hc1 Hlf]. apply has_false_cons in Hcr as [Hc2 Hcr].
  rewrite append_cons, splitLines_cons by done.
  rewrite IH by done.
  destruct (Ascii.eqb_spec c "010"); done.
Qed.

Lemma splitLines_plain p : plainLine p → splitLines p = [p].
Proof.
  induction p as [| c p IH]; intros [Hlf Hcr]; [done |].
  apply has_false_cons in Hlf as [Hc1 Hlf]. apply has_false_cons in Hcr as [Hc2 Hcr].
  rewrite splitLines_cons by done. rewrite IH by done.
  destruct (Ascii.eqb_spec c "010"); done.
Qed.

Lemma splitLines_join sep (lines : list string) :
  lineEnding sep → Forall plainLine lines → lines ≠ [] →
  splitLines (joinWith sep lines) = lines.
Proof.
  intros Hsep. induction lines as [| l lines IH]; [done |].
  intros [Hl Hlines]%Forall_cons _.
  destruct lines as [| l' lines]; [by apply splitLines_plain |].
  rewrite joinWith_cons.
  destruct Hsep as [-> | ->].
  - rewrite splitLines_app_LF by done. f_equal. by apply IH.
  - rewrite splitLines_app_CRLF by done. f_equal. by apply IH.
Qed.

Lemma linesOf_join sep (lines : list string) :
  lineEnding sep → Forall plainLine lines →
  linesOf (joinWith sep lines) = List.filter Boolean lines.
Proof.
  intros Hsep Hlines. unfold linesOf.
  destruct lines as [| l lines]; [done |].
  by rewrite splitLines_join.
Qed.

Lemma handleFile_lines Number text1 text2 :
  linesOf text1 = linesOf text2 → handleFile Number text1 = handleFile Number text2.
Proof. unfold handleFile, linesOf. by intros ->. Qed.

(** X2: the choice between the two line endings and the blank lines of a
    text do not matter: two texts made of plain lines that agree once the
    blank lines are left out, each with either ending, give the same
    records. *)
Theorem handleFile_line_endings Number sep1 sep2 (lines1 lines2 : list string) :
  lineEnding sep1 → lineEnding sep2 →
  Forall plainLine lines1 → Forall plainLine lines2 →
  List.filter Boolean lines1 = List.filter Boolean lines2 →
  handleFile Number (joinWith sep1 lines1) = handleFile Number (joinWith sep2 lines2).
Proof.
  intros H1 H2 Hl1 Hl2 Heq. apply handleFile_lines.
  by rewrite !linesOf_join.
Qed.

Lemma has_joinWith c sep (parts : list string) :
  has c sep = false → Forall (λ p, has c p = false) parts → has c (joinWith sep parts) = false.
Proof.
  intros Hsep. induction parts as [| p parts IH]; [done |].
  intros [Hp Hparts]%Forall_cons.
  destruct parts as [| q parts]; [done |].
  rewrite joinWith_cons, !has_app, Hp, Hsep. simpl. by apply IH.
Qed.

Lemma plainLine_joinWith (cells : list string) :
  Forall plainCell cells → plainLine (joinWith "," cells).
Proof.
  intros H. split; apply has_joinWith; try done;
    eapply Forall_impl; try exact H; by intros c (_ & ? & ?).
Qed.

Lemma filter_Boolean_all (lines : list string) :
  Forall (λ l, l ≠ "") lines → List.filter Boolean lines = lines.
Proof.
  induction 1 as [| l lines Hl _ IH]; [done |]. simpl. unfold Boolean at 1.
  destruct (String.eqb_spec l ""); [done |]. simpl. by rewrite IH.
Qed.

Lemma filter_Boolean_nonempty (lines : list string) :
  List.filter Boolean lines = filter (λ l, l ≠ "") lines.
Proof.
  induction lines as [| l lines IH]; [done |].
  rewrite filter_cons. simpl. unfold Boolean at 1.
  destruct (String.eqb_spec l ""); case_decide; simpl; congruence.
Qed.


Lemma splitLines_CR d s :
  d ≠ "010"%char →
  splitLines (String "013" (String d s)) =
    match splitLines (String d s) with
    | p :: ps => String "013" p :: ps
    | [] => [String "013" ""]
    end.
Proof.
  intros Hd. destruct d as [[] [] [] [] [] [] [] []]; try done.
Qed.

(** A line without line feed, then carriage return and line feed: the line
    is split off whole, carriage returns of its own included. *)
Lemma splitLines_app_any p rest :
  has "010" p = false → splitLines (p +:+ CRLF +:+ rest) = p :: splitLines rest.
Proof.
  induction p as [| c p IH]; intros Hlf; [done |].
  apply has_false_cons in Hlf as [Hc Hlf]. specialize (IH Hlf).
  rewrite append_cons.
  destruct (decide (c = "013"%char)) as [-> | Hcr].
  - destruct p as [| d p].
    + by vm_compute.
    + apply has_false_cons in Hlf as [Hd _].
      rewrite append_cons in *. rewrite splitLines_CR by done. by rewrite IH.
  - rewrite splitLines_cons by done. rewrite IH.
    destruct (Ascii.eqb_spec c "010"); done.
Qed.

Lemma splitLines_last p : has "010" p = false → splitLines p = [p].
Proof.
  induction p as [| c p IH]; intros Hlf; [done |].
  apply has_false_cons in Hlf as [Hc Hlf]. specialize (IH Hlf).
  destruct (decide (c = "013"%char)) as [-> | Hcr].
  - destruct p as [| d p]; [done |].
    apply has_false_cons in Hlf as [Hd _].
    rewrite splitLines_CR by done. by rewrite IH.
  - rewrite splitLines_cons by done. rewrite IH.
    destruct (Ascii.eqb_spec c "010"); done.
Qed.

(** No line holds a line feed. *)
Lemma splitLines_lines s : Forall (λ l, has "010" l = false) (splitLines s).
Proof.
  induction s as [| c s IH]; [by repeat constructor |].
  destruct (decide (c = "013"%char)) as [-> | Hcr].
  - destruct s as [| d s]; [by repeat constructor |].
    destruct (decide (d = "010"%char)) as [-> | Hd].
    + change (splitLines (String "013" (String "010" s))) with ("" :: splitLines s).
      change (splitLines (String "010" s)) with ("" :: splitLines s) in IH.
      done.
    + rewrite splitLines_CR by done.
      destruct (splitLines (String d s)) as [| p ps]; [by repeat constructor |].
      apply Forall_cons in IH as [Hp Hps]. apply Forall_cons. split; [| done].
      simpl. by rewrite Hp.
  - rewrite splitLines_cons by done.
    destruct (Ascii.eqb_spec c "010") as [-> | Hlf].
    + apply Forall_cons. split; [done | done].
    + destruct (splitLines s) as [| p ps].
      * apply Forall_cons. split; [| done]. simpl.
        destruct (Ascii.eqb_spec c "010"); done.
      * apply Forall_cons in IH as [Hp Hps]. apply Forall_cons. split; [| done].
        simpl. rewrite Hp. destruct (Ascii.eqb_spec c "010"); done.
Qed.

(** *** Trimming *)













Section Upload.
Variable Number : string → number.




Lemma record_ext hs line line' :
  (∀ j, (j < length hs)%nat → rawCell line j = rawCell line' j) →
  record Number hs line = record Number hs line'.
Proof.
  induction hs as [| h hs IH] using rev_ind; intros H; [done |].
  rewrite !record_snoc, IH.
  - rewrite H; [done |]. rewrite length_app. simpl. lia.
  - intros j Hj. apply H. rewrite length_app. simpl. lia.
Qed.

(** X5: the records depend only on the trimmed cells under the header's
    columns: two texts with the same header line whose data lines agree, cell
    by cell after trimming, on those columns give the same records, whatever
    further cells and padding they have. *)
Theorem handleFile_reads_header_columns text text' :
  head (linesOf text) = head (linesOf text') →
  Forall2 (λ line line', ∀ j, (j < length (headersOf text))%nat →
                              rawCell line j = rawCell line' j)
          (tail (linesOf text)) (tail (linesOf text')) →
  handleFile Number text = handleFile Number text'.
Proof.
  intros Hhead Htail.
  assert (headersOf text' = headersOf text) as Hh by (unfold headersOf; by rewrite Hhead).
  assert (length (linesOf text') = length (linesOf text)) as Hlen.
  { apply Forall2_length in Htail. rewrite !length_tl in Htail.
    destruct (linesOf text), (linesOf text'); simpl in *; try done; lia. }
  destruct (Nat.ltb_spec (length (linesOf text)) 2) as [Hshort | Hlong].
  { rewrite !handleFile_short; [done | lia | done]. }
  rewrite !handleFile_rows by lia. rewrite Hh.
  induction Htail as [| l l' ls ls' Hl _ IH]; [done |].
  simpl. f_equal; [by apply record_ext | done].
Qed.
End Upload.


Lemma handleFile_line_endings_witness :
  lineEnding CRLF ∧ lineEnding LF ∧
  Forall plainLine linesA ∧ Forall plainLine linesB ∧
  List.filter Boolean linesA = List.filter Boolean linesB ∧
  handleFile StringToNumber (joinWith CRLF linesA)
    = handleFile StringToNumber (joinWith LF linesB).
Proof.
  assert (lineEnding CRLF) as H1 by (by right).
  assert (lineEnding LF) as H2 by (by left).
  assert (Forall plainLine linesA) as H3 by (repeat constructor).
  assert (Forall plainLine linesB) as H4 by (repeat constructor).
  assert (List.filter Boolean linesA = List.filter Boolean linesB) as H5 by reflexivity.
  split; [exact H1 |]. split; [exact H2 |]. split; [exact H3 |].
  split; [exact H4 |]. split; [exact H5 |].
  exact (handleFile_line_endings StringToNumber CRLF LF linesA linesB H1 H2 H3 H4 H5).
Defined.


Lemma handleFile_reads_header_columns_witness :
  head (linesOf bareCells) = head (linesOf paddedCells) ∧
  Forall2 (λ line line', ∀ j, (j < length (headersOf bareCells))%nat →
                              rawCell line j = rawCell line' j)
          (tail (linesOf bareCells)) (tail (linesOf paddedCells)) ∧
  handleFile StringToNumber bareCells = handleFile StringToNumber paddedCells.
Proof.
  assert (head (linesOf bareCells) = head (linesOf paddedCells)) as H1 by reflexivity.
  assert (Forall2 (λ line line', ∀ j, (j < length (headersOf bareCells))%nat →
                                      rawCell line j = rawCell line' j)
                  (tail (linesOf bareCells)) (tail (linesOf paddedCells))) as H2.
  { change (tail (linesOf bareCells)) with ["1,2"].
    change (tail (linesOf paddedCells)) with [" 1 ,2,extra"].
    change (length (headersOf bareCells)) with 2%nat.
    constructor; [| constructor].
    intros [| [| j]] Hj; [reflexivity | reflexivity | lia]. }
  split; [exact H1 |]. split; [exact H2 |].
  exact (handleFile_reads_header_columns StringToNumber bareCells paddedCells H1 H2).
Defined.

End UploadFacts.

(** ** The charts, further *)

Module ChartFacts.
Import JS Explorer ExplorerFacts.

Section Status.
Variable String_ : number → string.

Lemma statusCounts_dom (rows : list (gmap string scalar)) :
  dom (statusCounts String_ rows)
  = list_to_set knownStatuses ∪ list_to_set (statusOf String_ <$> rows).
Proof.
  rewrite statusCounts_fold.
  match goal with |- dom (foldl ?f ?c rows) = _ =>
    assert (∀ c' : gmap string nat,
              dom (foldl f c' rows) = dom c' ∪ list_to_set (statusOf String_ <$> rows)) as H
  end.
  { induction rows as [| r rows IH]; intros c'; simpl.
    - by rewrite (right_id_L ∅ (∪)).
    - rewrite IH, dom_insert_L.
      by rewrite (comm_L (∪) {[_]}), <- (assoc_L (∪)). }
  rewrite H. f_equal.
Qed.

Lemma statusCounts_perm (rows1 rows2 : list (gmap string scalar)) :
  rows1 ≡ₚ rows2 → statusCounts String_ rows1 = statusCounts String_ rows2.
Proof.
  intros Hp. apply map_eq. intros k.
  pose proof (statusCounts_lookup String_ rows1 k) as H1.
  pose proof (statusCounts_lookup String_ rows2 k) as H2.
  assert (dom (statusCounts String_ rows1) = dom (statusCounts String_ rows2)) as Hdom.
  { rewrite !statusCounts_dom. f_equal. apply set_eq. intros x.
    rewrite !elem_of_list_to_set. by rewrite Hp. }
  assert (filter (λ r, statusOf String_ r = k) rows1
          ≡ₚ filter (λ r, statusOf String_ r = k) rows2) as Hf by (by rewrite Hp).
  apply Permutation_length in Hf. rewrite Hf, <- H2 in H1.
  destruct (statusCounts String_ rows1 !! k) as [n1 |] eqn:E1,
           (statusCounts String_ rows2 !! k) as [n2 |] eqn:E2; simpl in H1.
  - by rewrite H1.
  - apply mk_is_Some, elem_of_dom in E1. rewrite Hdom in E1.
    apply elem_of_dom in E1 as [? E1]. congruence.
  - apply mk_is_Some, elem_of_dom in E2. rewrite <- Hdom in E2.
    apply elem_of_dom in E2 as [? E2]. congruence.
  - done.
Qed.

(** X7: the distribution chart, from the rows: its entries are those of
    the four statuses, in the fixed order, that at least one row has, each
    with its name, the number of rows with that status, and its colour; no
    entry has the value zero. *)
Theorem distributionData_by_status (rows : list (gmap string scalar)) :
  distributionData String_ rows
  = omap (λ '(n, k, c),
            let v := length (filter (λ r, statusOf String_ r = k) rows) in
            if (0 <? v)%nat then Some {| name := n; value := v; color := c |} else None)
         palette.
Proof.
  unfold distributionData, usingUploaded. destruct rows as [| r rows]; [done |].
  change (negb (0 <? length (r :: rows))%nat) with false. cbv iota.
  rewrite !statusCounts_lookup. unfold palette. cbn [omap list_omap List.filter value].
  repeat match goal with
         | |- context [(0 <? ?n)%nat] => destruct (0 <? n)%nat
         end; reflexivity.
Qed.
End Status.

Section Orbital.
Variable Number : string → number.

Local Abbreviation step := (λ (counts : list BinCount) (r : gmap string scalar),
  let val := toNumber Number (r !! "koi_period") in
  if isFinite val then
    let idx := findIndex (inBin val) bins in
    if (0 <=? idx)%Z then bump idx counts else counts
  else counts).

Local Abbreviation bar := (λ (l : string) (c0 : nat) (b : Bin) (rows : list (gmap string scalar)),
  {| range := l; count := (c0 + length (filter (periodIn Number b) rows))%nat |}).

Lemma periodIn_cons b r (rows : list (gmap string scalar)) :
  length (filter (periodIn Number b) (r :: rows))
  = ((if isFinite (toNumber Number (r !! "koi_period"))
         && inBin (toNumber Number (r !! "koi_period")) b then 1 else 0)
     + length (filter (periodIn Number b) rows))%nat.
Proof.
  rewrite filter_cons. destruct (decide (periodIn Number b r)) as [H | H];
    unfold periodIn in H.
  - by rewrite H.
  - apply not_true_is_false in H. by rewrite H.
Qed.

Lemma fold_bars (rows : list (gmap string scalar)) (c0 c1 c2 c3 c4 : nat) :
  foldl step
    [ {| range := "0-10d"; count := c0 |}; {| range := "10-50d"; count := c1 |};
      {| range := "50-100d"; count := c2 |}; {| range := "100-200d"; count := c3 |};
      {| range := "200+d"; count := c4 |} ] rows
  = [ bar "0-10d" c0 {| label := "0-10d"; min := Fin 0; max := Fin 10 |} rows;
      bar "10-50d" c1 {| label := "10-50d"; min := Fin 10; max := Fin 50 |} rows;
      bar "50-100d" c2 {| label := "50-100d"; min := Fin 50; max := Fin 100 |} rows;
      bar "100-200d" c3 {| label := "100-200d"; min := Fin 100; max := Fin 200 |} rows;
      bar "200+d" c4 {| label := "200+d"; min := Fin 200; max := Inf false |} rows ].
Proof.
  revert c0 c1 c2 c3 c4. induction rows as [| r rows IH]; intros c0 c1 c2 c3 c4.
  { simpl. by rewrite !Nat.add_0_r. }
  cbn [foldl]. cbv zeta. rewrite !periodIn_cons.
  set (go := foldl _) in *.
  destruct (toNumber Number (r !! "koi_period")) as [| neg | q].
  - simpl. apply IH.
  - simpl. apply IH.
  - unfold bins, inBin, ge, lt. cbn [findIndex min max isFinite andb].
    qcases; try (exfalso; lia); simpl; unfold bump;
      repeat match goal with
             | |- context [Z.to_nat ?i] =>
                 let n := eval vm_compute in (Z.to_nat i) in change (Z.to_nat i) with n
             end;
      simpl; rewrite IH;
      repeat (apply (f_equal2 (@cons BinCount));
              [apply (f_equal2 Build_BinCount); [reflexivity | lia] |]);
      reflexivity.
Qed.

(** X10: the histogram, from the rows: for a non-empty upload it has the
    five bars, in the order of the bins, each labelled by its bin and as
    high as the number of rows whose period is a finite number in that bin;
    for an empty upload it has no bar. *)
Theorem orbitalData_bars (rows : list (gmap string scalar)) :
  orbitalData Number rows
  = if usingUploaded rows
    then (λ b, {| range := label b;
                  count := length (filter (periodIn Number b) rows) |}) <$> bins
    else [].
Proof.
  unfold orbitalData. destruct (usingUploaded rows); [| done]. cbv iota. simpl negb.
  cbv iota. exact (fold_bars rows 0 0 0 0 0).
Qed.
End Orbital.

(** X8: the order of the rows does not matter to the charts: two uploads
    with the same rows in a different order have the same status counts, the
    same distribution and the same histogram. *)
Theorem charts_ignore_row_order (Number : string → number) (String_ : number → string)
    (rows1 rows2 : list (gmap string scalar)) :
  rows1 ≡ₚ rows2 →
  statusCounts String_ rows1 = statusCounts String_ rows2 ∧
  distributionData String_ rows1 = distributionData String_ rows2 ∧
  orbitalData Number rows1 = orbitalData Number rows2.
Proof.
  intros Hp.
  assert (usingUploaded rows1 = usingUploaded rows2) as Hu.
  { unfold usingUploaded. by rewrite (Permutation_length Hp). }
  split; [by apply statusCounts_perm |]. split.
  - unfold distributionData. by rewrite Hu, (statusCounts_perm String_ _ _ Hp).
  - assert (∀ b, length (filter (periodIn Number b) rows1)
                 = length (filter (periodIn Number b) rows2)) as Hb.
    { intros b. apply Permutation_length. by rewrite Hp. }
    unfold orbitalData. rewrite Hu. destruct (negb (usingUploaded rows2)); [done |].
    etrans; [exact (fold_bars Number rows1 0 0 0 0 0) |].
    symmetry. etrans; [exact (fold_bars Number rows2 0 0 0 0 0) |].
    by rewrite !Hb.
Qed.

Section Scatter.
Variable Number : string → number.
Variable String_ : number → string.

Local Abbreviation point := (λ r : gmap string scalar,
  {| radius := toNumber Number (r !! "koi_prad");
     temperature := toNumber Number (r !! "koi_teq");
     status := statusOf String_ r |}).

Lemma filter_all {A} (p : A → bool) (l : list A) :
  Forall (λ x, p x = true) l → List.filter p l = l.
Proof. induction 1 as [| x l Hx _ IH]; [done |]. simpl. by rewrite Hx, IH. Qed.

Lemma scatterData_all (rows : list (gmap string scalar)) :
  Forall (λ r, plotted r = true) rows → scatterData Number String_ rows = point <$> rows.
Proof.
  intros H. unfold scatterData, usingUploaded. destruct rows as [| r rows]; [done |].
  change (negb (0 <? length (r :: rows))%nat) with false. cbv iota.
  by rewrite filter_all.
Qed.

(** X13: when the header of an upload names both the radius and the
    temperature column, the scatter chart has one point per record, in
    order, whatever the cells hold: no record is left out, and a coordinate
    is [Number] of the stored field, which is [NaN] for a cell that is not a
    number. *)
Theorem scatterData_one_point_per_row text :
  "koi_prad" ∈ headersOf text → "koi_teq" ∈ headersOf text →
  scatterData Number String_ (handleFile Number text) = point <$> handleFile Number text.
Proof.
  intros Hprad Hteq. apply scatterData_all. apply Forall_forall. intros r Hr.
  assert (dom r = list_to_set (headersOf text)) as Hdom.
  { destruct (Nat.ltb_spec (length (linesOf text)) 2) as [Hshort | Hlong].
    { rewrite (handleFile_short Number text Hshort) in Hr. by apply elem_of_nil in Hr. }
    rewrite (handleFile_rows Number text Hlong) in Hr.
    apply list_elem_of_fmap in Hr as (line & -> & _). apply record_dom. }
  unfold plotted. apply andb_true_intro.
  split; apply bool_decide_eq_true, elem_of_dom;
    rewrite Hdom; by apply elem_of_list_to_set.
Qed.



End Scatter.

Lemma charts_ignore_row_order_witness :
  let r1 := record StringToNumber ["koi_period"; "status"] "5,confirmed" in
  let r2 := record StringToNumber ["koi_period"; "status"] "20,candidate" in
  [r1; r2] ≡ₚ [r2; r1] ∧
  statusCounts NumberToString [r1; r2] = statusCounts NumberToString [r2; r1] ∧
  distributionData NumberToString [r1; r2] = distributionData NumberToString [r2; r1] ∧
  orbitalData StringToNumber [r1; r2] = orbitalData StringToNumber [r2; r1].
Proof.
  intros r1 r2.
  assert ([r1; r2] ≡ₚ [r2; r1]) as H by apply perm_swap.
  split; [exact H |].
  exact (charts_ignore_row_order StringToNumber NumberToString [r1; r2] [r2; r1] H).
Defined.

Lemma scatterData_one_point_per_row_witness :
  "koi_prad" ∈ headersOf scatterUpload ∧
  "koi_teq" ∈ headersOf scatterUpload ∧
  scatterData StringToNumber NumberToString (handleFile StringToNumber scatterUpload)
  = (λ r : gmap string scalar,
       {| radius := toNumber StringToNumber (r !! "koi_prad");
          temperature := toNumber StringToNumber (r !! "koi_teq");
          status := statusOf NumberToString r |})
      <$> handleFile StringToNumber scatterUpload.
Proof.
  assert ("koi_prad" ∈ headersOf scatterUpload) as H1
    by (apply (bool_decide_unpack _); vm_compute; exact I).
  assert ("koi_teq" ∈ headersOf scatterUpload) as H2
    by (apply (bool_decide_unpack _); vm_compute; exact I).
  split; [exact H1 |]. split; [exact H2 |].
  exact (scatterData_one_point_per_row StringToNumber NumberToString scatterUpload H1 H2).
Defined.

End ChartFacts.

(** ** The page's objects, with their prototype

    In this module [handleFile], [record], [headersOf], [rawCell],
    [statusOf] and [statusCounts] are those of module [Objects]. *)

Module ObjectsFacts.
Import JS Explorer ExplorerFacts UploadFacts Objects.

Lemma assign_lookup {V} (k : string) (v : V) (obj : gmap string V) (k' : string) :
  assign k v obj !! k' = if bool_decide (k' = k ∧ k ≠ "__proto__") then Some v else obj !! k'.
Proof.
  unfold assign. destruct (String.eqb_spec k "__proto__") as [-> | Hk].
  - rewrite bool_decide_eq_false_2; [done |]. by intros [_ ?].
  - case_bool_decide as H.
    + destruct H as [-> _]. by rewrite lookup_insert_eq.
    + rewrite lookup_insert_ne; [done |]. intros <-. by apply H.
Qed.

(** *** The upload *)

Section Upload.
Variable trim : string → string.
Variable Number : string → number.

Lemma record_push hs h line :
  record trim Number (hs ++ [h]) line
  = assign h (cell Number (rawCell trim line (length hs))) (record trim Number hs line).
Proof.
  unfold record. rewrite imap_app, foldl_app. simpl.
  by rewrite Nat.add_0_r.
Qed.

(** No record has a field [__proto__]. *)
Lemma record_no_proto hs line : record trim Number hs line !! "__proto__" = None.
Proof.
  induction hs as [| x hs IH] using rev_ind; [done |].
  rewrite record_push, assign_lookup, IH.
  rewrite bool_decide_eq_false_2; [done |]. intros [E H]. by apply H.
Qed.

(** A field holds the cell under the last header of that name. *)
Lemma record_field hs line j h :
  hs !! j = Some h → (∀ j', (j < j')%nat → hs !! j' ≠ Some h) → h ≠ "__proto__" →
  record trim Number hs line !! h = Some (cell Number (rawCell trim line j)).
Proof.
  revert j. induction hs as [| x hs IH] using rev_ind; intros j Hj Hlast Hp; [done |].
  rewrite record_push, assign_lookup.
  destruct (decide (j = length hs)) as [-> | Hne].
  - rewrite lookup_app_r, Nat.sub_diag in Hj by lia. injection Hj as ->.
    by rewrite bool_decide_eq_true_2.
  - assert (j < length hs)%nat as Hlt.
    { apply lookup_lt_Some in Hj. rewrite length_app in Hj. simpl in Hj. lia. }
    rewrite lookup_app_l in Hj by done.
    assert (x ≠ h) as Hx.
    { intros ->. apply (Hlast (length hs)); [lia |].
      by rewrite lookup_app_r, Nat.sub_diag by lia. }
    rewrite bool_decide_eq_false_2 by (intros [E _]; congruence).
    apply IH; [done | | done].
    intros j' Hj' Hin. apply (Hlast j'); [done |].
    rewrite lookup_app_l; [done |]. by apply lookup_lt_Some in Hin.
Qed.

Lemma upload_short text :
  (length (linesOf text) < 2)%nat → handleFile trim Number text = [].
Proof.
  intros H. unfold handleFile. fold (linesOf text).
  destruct (Nat.ltb_spec (length (linesOf text)) 2); [done | lia].
Qed.

Lemma upload_rows text :
  (2 ≤ length (linesOf text))%nat →
  handleFile trim Number text
  = record trim Number (headersOf trim text) <$> tail (linesOf text).
Proof.
  intros H. unfold handleFile. fold (linesOf text).
  destruct (Nat.ltb_spec (length (linesOf text)) 2); [lia | done].
Qed.

(** C6: let [kept] be the lines of a text that are not empty, in file
    order, the lines being what lies between the line endings of the text.
    With fewer than two of them the upload yields no record.  Otherwise the
    first is the header and there is exactly one record for each further
    one, at the same place: record [i] is the record that the upload of the
    header and the kept line [i + 1] alone yields.  A line is kept, and has
    its record, whatever its cells hold; only the empty line is passed
    over. *)
Theorem handleFile_one_record_per_line text :
  let kept := filter (λ l, l ≠ "") (splitLines text) in
  ((length kept < 2)%nat → handleFile trim Number text = []) ∧
  ((2 ≤ length kept)%nat →
     length (handleFile trim Number text) = (length kept - 1)%nat ∧
     ∀ i header line, kept !! 0%nat = Some header → kept !! S i = Some line →
       ∃ r, handleFile trim Number text !! i = Some r ∧
            handleFile trim Number (header +:+ CRLF +:+ line) = [r]).
Proof.
  intros kept.
  assert (linesOf text = kept) as Hlines by apply filter_Boolean_nonempty.
  split.
  { intros Hshort. apply upload_short. by rewrite Hlines. }
  intros Hlong.
  rewrite (upload_rows text) by (by rewrite Hlines).
  rewrite Hlines. split; [by rewrite length_fmap, length_tl |].
  intros i header line Hheader Hline.
  exists (record trim Number (headersOf trim text) line).
  split; [by rewrite list_lookup_fmap, lookup_tail, Hline |].
  assert (∀ l, l ∈ kept → l ≠ "" ∧ has "010" l = false) as Hkept.
  { intros l [Hl Hin]%list_elem_of_filter. split; [done |].
    pose proof (splitLines_lines text) as H. rewrite Forall_forall in H. by apply H. }
  destruct (Hkept header) as [Hh1 Hh2]; [by eapply list_elem_of_lookup_2 |].
  destruct (Hkept line) as [Hl1 Hl2]; [by eapply list_elem_of_lookup_2 |].
  assert (linesOf (header +:+ CRLF +:+ line) = [header; line]) as Htwo.
  { unfold linesOf. rewrite splitLines_app_any, splitLines_last by done.
    apply filter_Boolean_all. by repeat apply Forall_cons_2. }
  rewrite (upload_rows (header +:+ CRLF +:+ line)) by (by rewrite Htwo).
  unfold headersOf. rewrite Htwo, Hlines. simpl.
  by rewrite (head_lookup kept), Hheader.
Qed.

(** C5, amended: whether a field of a record is a number is decided cell
    by cell, from the trimmed text of that one cell: the field under a
    header other than [__proto__] holds a number exactly when the text of
    its cell is non-empty and [Number] of it is not [NaN], and holds that
    text otherwise; under [__proto__] a record has no field. *)
Theorem cell_type_decided_per_cell text i r j h :
  handleFile trim Number text !! i = Some r →
  headersOf trim text !! j = Some h →
  (∀ j', (j < j')%nat → headersOf trim text !! j' ≠ Some h) →
  h ≠ "__proto__" →
  r !! "__proto__" = None ∧
  ∃ line, linesOf text !! S i = Some line ∧
    r !! h = Some (if negb (String.eqb (rawCell trim line j) "")
                      && negb (isNaN (Number (rawCell trim line j)))
                   then VNum (Number (rawCell trim line j))
                   else VStr (rawCell trim line j)).
Proof.
  intros Hr Hj Hlast Hp.
  destruct (Nat.ltb_spec (length (linesOf text)) 2) as [Hshort | Hlong].
  { by rewrite (upload_short text Hshort) in Hr. }
  rewrite (upload_rows text Hlong), list_lookup_fmap, lookup_tail in Hr.
  destruct (linesOf text !! S i) as [line |] eqn:Hline; [| done].
  injection Hr as <-. split; [apply record_no_proto |].
  exists line. split; [done |].
  by rewrite (record_field _ line j h Hj Hlast Hp).
Qed.

(** X1: a table written out as comma-separated lines is read back: the
    upload of a rendered table has one record per row, and the field under
    each (trimmed) header is the cell of that column, classified from its
    trimmed text, or the empty string when the row has no such cell.  No
    header is [__proto__], under which a record has no field. *)
Theorem handleFile_render sep (hs : list string) (rows : list (list string)) :
  lineEnding sep →
  Forall plainCell hs → Forall (Forall plainCell) rows →
  Forall (λ cells, joinWith "," cells ≠ "") (hs :: rows) →
  rows ≠ [] →
  NoDup (trim <$> hs) →
  "__proto__" ∉ trim <$> hs →
  length (handleFile trim Number (render sep (hs :: rows))) = length rows ∧
  ∀ i cells j h, rows !! i = Some cells → hs !! j = Some h →
    handleFile trim Number (render sep (hs :: rows)) !! i ≫= (.!! trim h)
    = Some (cell Number (trim (default "" (cells !! j)))).
Proof.
  intros Hsep Hhs Hrows Hblank Hne Hdup Hproto.
  assert (linesOf (render sep (hs :: rows)) = joinWith "," <$> (hs :: rows)) as Hlines.
  { unfold render. rewrite linesOf_join; [| done |].
    - apply filter_Boolean_all. by apply Forall_fmap.
    - apply Forall_fmap. apply Forall_cons. split; [by apply plainLine_joinWith |].
      eapply Forall_impl; [exact Hrows |]. intros cells. apply plainLine_joinWith. }
  assert (hs ≠ []) as Hhs0.
  { intros ->. by apply Forall_cons in Hblank as [? _]. }
  assert (headersOf trim (render sep (hs :: rows)) = trim <$> hs) as Hheaders.
  { unfold headersOf. rewrite Hlines. simpl. rewrite split_join; [done | done |].
    eapply Forall_impl; [exact Hhs |]. by intros c [? _]. }
  assert (2 ≤ length (linesOf (render sep (hs :: rows))))%nat as Hlong.
  { rewrite Hlines, length_fmap. destruct rows; [done | simpl; lia]. }
  rewrite (upload_rows _ Hlong), Hheaders, Hlines. simpl tail.
  split; [by rewrite !length_fmap |].
  intros i cells j h Hi Hj.
  rewrite !list_lookup_fmap, Hi. simpl.
  assert (cells ≠ []) as Hcells.
  { intros ->. apply Forall_cons in Hblank as [_ Hb].
    by apply (Forall_lookup_1 _ _ _ _ Hb) in Hi. }
  assert ((trim <$> hs) !! j = Some (trim h)) as Hj2 by (by rewrite list_lookup_fmap, Hj).
  rewrite (record_field _ _ j (trim h)).
  - unfold rawCell. rewrite split_join; [done | done |].
    apply (Forall_lookup_1 _ _ _ _ Hrows) in Hi.
    eapply Forall_impl; [exact Hi |]. by intros c [? _].
  - done.
  - intros j' Hlt Hj'. pose proof (NoDup_lookup _ _ _ _ Hdup Hj2 Hj'). lia.
  - intros E. apply Hproto. rewrite <- E. by eapply list_elem_of_lookup_2.
Qed.

(** X4: a data line with fewer cells than the header still gets every
    field: the field of a column the line does not reach is the empty
    string, which [trim] leaves empty.  The header is not [__proto__], under
    which a record has no field. *)
Theorem handleFile_short_line text i line j h :
  trim "" = "" →
  linesOf text !! S i = Some line →
  headersOf trim text !! j = Some h →
  (∀ j', (j < j')%nat → headersOf trim text !! j' ≠ Some h) →
  h ≠ "__proto__" →
  (length (split "," line) ≤ j)%nat →
  handleFile trim Number text !! i ≫= (.!! h) = Some (VStr "").
Proof.
  intros Htrim Hline Hj Hlast Hp Hshort.
  assert (2 ≤ length (linesOf text))%nat as Hlong.
  { apply lookup_lt_Some in Hline. lia. }
  rewrite (upload_rows text Hlong), list_lookup_fmap, lookup_tail, Hline.
  simpl. rewrite (record_field _ line j h Hj Hlast Hp).
  unfold rawCell. rewrite lookup_ge_None_2 by done. simpl. by rewrite Htrim.
Qed.
End Upload.

(** With the ASCII [trim] and no header [__proto__] this is the upload of
    module [Explorer]. *)
Lemma record_plain Number hs line :
  "__proto__" ∉ hs → record JS.trim Number hs line = Explorer.record Number hs line.
Proof.
  induction hs as [| h hs IH] using rev_ind; intros H; [done |].
  rewrite not_elem_of_app, list_elem_of_singleton in H. destruct H as [Hhs Hh].
  rewrite record_push, record_snoc, IH by done. unfold assign.
  destruct (String.eqb_spec h "__proto__") as [-> | _]; done.
Qed.

Lemma handleFile_plain Number text :
  "__proto__" ∉ Explorer.headersOf text →
  handleFile JS.trim Number text = Explorer.handleFile Number text.
Proof.
  intros H. unfold handleFile, Explorer.handleFile. fold (linesOf text).
  destruct (length (linesOf text) <? 2)%nat; [done |].
  fold (Explorer.headersOf text). apply list_fmap_ext. intros _ line _.
  by apply record_plain.
Qed.

Lemma handleFile_one_record_per_line_witness :
  let text := joinWith CRLF blankLines in
  let kept := filter (λ l, l ≠ "") (splitLines text) in
  kept = ["koi_period,status"; "5,confirmed"; ","] ∧
  (2 ≤ length kept)%nat ∧
  length (handleFile JS.trim StringToNumber text) = (length kept - 1)%nat ∧
  ∀ i header line, kept !! 0%nat = Some header → kept !! S i = Some line →
    ∃ r, handleFile JS.trim StringToNumber text !! i = Some r ∧
         handleFile JS.trim StringToNumber (header +:+ CRLF +:+ line) = [r].
Proof.
  intros text kept.
  assert (kept = ["koi_period,status"; "5,confirmed"; ","]) as H1 by reflexivity.
  assert (2 ≤ length kept)%nat as H2 by (vm_compute; lia).
  split; [exact H1 |]. split; [exact H2 |].
  exact (proj2 (handleFile_one_record_per_line JS.trim StringToNumber text) H2).
Defined.

Lemma cell_type_decided_per_cell_witness :
  let r := record JS.trim StringToNumber ["koi_depth"; "status"] "n/a,candidate" in
  handleFile JS.trim StringToNumber mixedColumn !! 1%nat = Some r ∧
  headersOf JS.trim mixedColumn !! 0%nat = Some "koi_depth" ∧
  (∀ j', (0 < j')%nat → headersOf JS.trim mixedColumn !! j' ≠ Some "koi_depth") ∧
  "koi_depth" ≠ "__proto__" ∧
  r !! "__proto__" = None ∧
  ∃ line, linesOf mixedColumn !! 2%nat = Some line ∧
    r !! "koi_depth" = Some (if negb (String.eqb (rawCell JS.trim line 0) "")
                                && negb (isNaN (StringToNumber (rawCell JS.trim line 0)))
                             then VNum (StringToNumber (rawCell JS.trim line 0))
                             else VStr (rawCell JS.trim line 0)).
Proof.
  intros r.
  assert (handleFile JS.trim StringToNumber mixedColumn !! 1%nat = Some r) as H1
    by (vm_compute; reflexivity).
  assert (headersOf JS.trim mixedColumn !! 0%nat = Some "koi_depth") as H2
    by (vm_compute; reflexivity).
  assert (∀ j', (0 < j')%nat → headersOf JS.trim mixedColumn !! j' ≠ Some "koi_depth") as H3.
  { intros [| [| j']] Hj; [lia | vm_compute; discriminate | vm_compute; discriminate]. }
  assert ("koi_depth" ≠ "__proto__") as H4 by discriminate.
  split; [exact H1 |]. split; [exact H2 |]. split; [exact H3 |]. split; [exact H4 |].
  exact (cell_type_decided_per_cell JS.trim StringToNumber mixedColumn 1 r 0 "koi_depth"
           H1 H2 H3 H4).
Defined.

Lemma handleFile_render_witness :
  lineEnding CRLF ∧
  Forall plainCell sampleHeader ∧
  Forall (Forall plainCell) sampleRows ∧
  Forall (λ cells, joinWith "," cells ≠ "") (sampleHeader :: sampleRows) ∧
  sampleRows ≠ [] ∧
  NoDup (JS.trim <$> sampleHeader) ∧
  ("__proto__" ∉ JS.trim <$> sampleHeader) ∧
  length (handleFile JS.trim StringToNumber (render CRLF (sampleHeader :: sampleRows)))
    = length sampleRows ∧
  ∀ i cells j h, sampleRows !! i = Some cells → sampleHeader !! j = Some h →
    handleFile JS.trim StringToNumber (render CRLF (sampleHeader :: sampleRows)) !! i
      ≫= (.!! JS.trim h)
    = Some (cell StringToNumber (JS.trim (default "" (cells !! j)))).
Proof.
  assert (lineEnding CRLF) as H1 by (by right).
  assert (Forall plainCell sampleHeader) as H2 by (repeat constructor).
  assert (Forall (Forall plainCell) sampleRows) as H3 by (repeat constructor).
  assert (Forall (λ cells, joinWith "," cells ≠ "") (sampleHeader :: sampleRows)) as H4
    by (repeat constructor; vm_compute; discriminate).
  assert (sampleRows ≠ []) as H5 by discriminate.
  assert (NoDup (JS.trim <$> sampleHeader)) as H6
    by (apply (bool_decide_unpack _); vm_compute; exact I).
  assert ("__proto__" ∉ JS.trim <$> sampleHeader) as H7
    by (apply (bool_decide_unpack _); vm_compute; exact I).
  split; [exact H1 |]. split; [exact H2 |]. split; [exact H3 |].
  split; [exact H4 |]. split; [exact H5 |]. split; [exact H6 |]. split; [exact H7 |].
  exact (handleFile_render JS.trim StringToNumber CRLF sampleHeader sampleRows
           H1 H2 H3 H4 H5 H6 H7).
Defined.

Lemma handleFile_short_line_witness :
  JS.trim "" = "" ∧
  linesOf shortLine !! 1%nat = Some "5" ∧
  headersOf JS.trim shortLine !! 1%nat = Some "status" ∧
  (∀ j', (1 < j')%nat → headersOf JS.trim shortLine !! j' ≠ Some "status") ∧
  "status" ≠ "__proto__" ∧
  (length (split "," "5") ≤ 1)%nat ∧
  handleFile JS.trim StringToNumber shortLine !! 0%nat ≫= (.!! "status") = Some (VStr "").
Proof.
  assert (JS.trim "" = "") as H0 by reflexivity.
  assert (linesOf shortLine !! 1%nat = Some "5") as H1 by reflexivity.
  assert (headersOf JS.trim shortLine !! 1%nat = Some "status") as H2 by reflexivity.
  assert (∀ j', (1 < j')%nat → headersOf JS.trim shortLine !! j' ≠ Some "status") as H3.
  { intros [| [| j']] Hj; [lia | lia | vm_compute; discriminate]. }
  assert ("status" ≠ "__proto__") as H4 by discriminate.
  assert (length (split "," "5") ≤ 1)%nat as H5 by (vm_compute; lia).
  split; [exact H0 |]. split; [exact H1 |]. split; [exact H2 |]. split; [exact H3 |].
  split; [exact H4 |]. split; [exact H5 |].
  exact (handleFile_short_line JS.trim StringToNumber shortLine 0 "5" 1 "status"
           H0 H1 H2 H3 H4 H5).
Defined.

(** *** The status counts *)

Section Counts.
Variable toLowerCase : string → string.
Variable String_ : number → string.

(** The body of the counting loop. *)
Local Abbreviation step := (λ (counts : gmap string tally) (r : gmap string scalar),
  assign (statusOf toLowerCase String_ r)
         (plusOne (readKey counts (statusOf toLowerCase String_ r))) counts).

Local Abbreviation key := (statusOf toLowerCase String_).

Lemma statusCounts_push rows r :
  statusCounts toLowerCase String_ (rows ++ [r])
  = step (statusCounts toLowerCase String_ rows) r.
Proof.
  unfold statusCounts, usingUploaded. rewrite length_app. simpl.
  replace (0 <? length rows + 1)%nat with true by (symmetry; apply Nat.ltb_lt; lia).
  simpl. rewrite foldl_app. simpl. by destruct rows.
Qed.

Lemma filter_snoc_length (k : string) (rows : list (gmap string scalar)) r :
  length (filter (λ r, key r = k) (rows ++ [r])%list)
  = (length (filter (λ r, key r = k) rows)
     + (if bool_decide (key r = k) then 1 else 0))%nat.
Proof.
  rewrite filter_app, length_app, filter_cons. simpl.
  case_bool_decide; case_decide; done.
Qed.

Lemma filter_absent (k : string) (rows : list (gmap string scalar)) :
  k ∉ key <$> rows → length (filter (λ r, key r = k) rows) = 0%nat.
Proof.
  induction rows as [| r rows IH]; [done |]. rewrite fmap_cons, not_elem_of_cons.
  intros [Hne Hk]. rewrite filter_cons. case_decide; [congruence |]. by apply IH.
Qed.

(** X6: the properties of the counts object, key by key.  Under a name
    that [Object.prototype] has, the object holds no count: nothing at all
    under [__proto__], and under any other such name a string as soon as a
    row has that status.  Under every other key it holds the number of rows
    with that status, if the key is one of the four known statuses or the
    status of a row, and nothing otherwise. *)
Theorem statusCounts_by_key (rows : list (gmap string scalar)) (k : string) :
  statusCounts toLowerCase String_ rows !! k
  = if bool_decide (k ∈ inheritedNames)
    then (if bool_decide (k ≠ "__proto__" ∧ k ∈ statusOf toLowerCase String_ <$> rows)
          then Some Text else None)
    else (if bool_decide (k ∈ knownStatuses ∨ k ∈ statusOf toLowerCase String_ <$> rows)
          then Some (Tally (length (filter (λ r, statusOf toLowerCase String_ r = k) rows)))
          else None).
Proof.
  induction rows as [| r rows IH] using rev_ind.
  - unfold statusCounts. simpl.
    destruct (decide (k = "confirmed")) as [-> | ?]; [by vm_compute |].
    destruct (decide (k = "candidate")) as [-> | ?]; [by vm_compute |].
    destruct (decide (k = "false_positive")) as [-> | ?]; [by vm_compute |].
    destruct (decide (k = "unknown")) as [-> | ?]; [by vm_compute |].
    rewrite !lookup_insert_ne by done. rewrite lookup_empty.
    rewrite (bool_decide_eq_false_2 (_ ∧ _)) by (intros [_ H]; by apply elem_of_nil in H).
    rewrite (bool_decide_eq_false_2 (_ ∨ _)).
    + by case_bool_decide.
    + intros [H | H]; [| by apply elem_of_nil in H].
      unfold knownStatuses in H.
      repeat (apply elem_of_cons in H as [-> | H]; [done |]). by apply elem_of_nil in H.
  - rewrite statusCounts_push, assign_lookup, fmap_app, filter_snoc_length.
    set (s := key r) in *. simpl.
    assert (∀ x : string, x ∈ ((key <$> rows) ++ [s])%list ↔ x ∈ key <$> rows ∨ x = s) as Hin.
    { intros x. rewrite elem_of_app, list_elem_of_singleton. done. }
    unfold readKey.
    destruct (decide (k = s)) as [-> | Hks].
    + rewrite IH, (bool_decide_eq_true_2 (s = s)) by done. clear IH.
      destruct (decide (s ∈ inheritedNames)) as [Hinh | Hinh].
      * rewrite (bool_decide_eq_true_2 _ Hinh).
        destruct (decide (s = "__proto__")) as [Hp | Hp].
        -- rewrite bool_decide_eq_false_2 by (by intros [_ ?]).
           rewrite !(bool_decide_eq_false_2 (s ≠ "__proto__" ∧ _)) by (by intros [? _]).
           done.
        -- rewrite (bool_decide_eq_true_2 (s = s ∧ _)) by done.
           rewrite (bool_decide_eq_true_2 (_ ∧ s ∈ (_ ++ _)%list))
             by (split; [done | apply Hin; by right]).
           by destruct (bool_decide (s ≠ "__proto__" ∧ _)).
      * rewrite (bool_decide_eq_false_2 _ Hinh).
        assert (s ≠ "__proto__") as Hp.
        { intros E. apply Hinh. rewrite E. apply (bool_decide_unpack _). by vm_compute. }
        rewrite (bool_decide_eq_true_2 (s = s ∧ _)) by done.
        rewrite (bool_decide_eq_true_2 (_ ∨ s ∈ (_ ++ _)%list))
          by (right; apply Hin; by right).
        case_bool_decide as Hk; simpl; [done |].
        rewrite filter_absent; [done |]. intros ?. apply Hk. by right.
    + rewrite IH, (bool_decide_eq_false_2 (k = s ∧ _)) by (by intros [? _]). clear IH.
      rewrite (bool_decide_eq_false_2 (s = k)) by done. rewrite Nat.add_0_r.
      assert (k ∈ ((key <$> rows) ++ [s])%list ↔ k ∈ key <$> rows) as Hk.
      { rewrite Hin. split; [intros [? | ?]; [done | congruence] | by left]. }
      repeat case_bool_decide; try done; exfalso; tauto.
Qed.
End Counts.

(** With the ASCII [toLowerCase], and where no row has a status that
    [Object.prototype] has a property for, the object holds exactly the
    counts of [Explorer.statusCounts]. *)
Lemma statusCounts_plain String_ (rows : list (gmap string scalar)) :
  Forall (λ r, Explorer.statusOf String_ r ∉ inheritedNames) rows →
  statusCounts JS.toLowerCase String_ rows = Tally <$> Explorer.statusCounts String_ rows.
Proof.
  induction rows as [| r rows IH] using rev_ind; intros H.
  - apply map_eq. intros k. by vm_compute.
  - apply Forall_app in H as [Hrows [Hr _]%Forall_cons].
    rewrite statusCounts_push, IH by done.
    rewrite (statusCounts_fold String_ (rows ++ [r])), foldl_app, <- statusCounts_fold.
    simpl. change (statusOf JS.toLowerCase String_ r) with (Explorer.statusOf String_ r).
    set (s := Explorer.statusOf String_ r) in *.
    set (c := Explorer.statusCounts String_ rows).
    unfold assign, readKey. rewrite lookup_fmap.
    assert (s ≠ "__proto__") as Hp.
    { intros E. apply Hr. rewrite E. apply (bool_decide_unpack _). by vm_compute. }
    destruct (String.eqb_spec s "__proto__") as [? | _]; [done |].
    rewrite fmap_insert. f_equal.
    destruct (c !! s) as [n |]; simpl; [done |].
    by rewrite bool_decide_eq_false_2.
Qed.

(** C8: the upload [protoStatus] has two data lines, with the statuses
    Confirmed and __proto__.  The first is counted, under the lower-cased
    key confirmed.  The second is counted under no key: after the loop the
    object holds the count 1 for confirmed and 0 for the three other known
    statuses, and nothing else, so the counts add up to 1 for 2 rows. *)
Theorem statusCounts_drops_inherited_key :
  let rows := handleFile JS.trim StringToNumber protoStatus in
  length rows = 2%nat ∧
  statusOf JS.toLowerCase NumberToString <$> rows = ["confirmed"; "__proto__"] ∧
  statusCounts JS.toLowerCase NumberToString rows
  = <["confirmed" := Tally 1]> (<["candidate" := Tally 0]>
      (<["false_positive" := Tally 0]> (<["unknown" := Tally 0]> ∅))).
Proof. repeat split; by vm_compute. Qed.

(** Two rows of status constructor leave a string under that key, not the
    count 2. *)
Lemma statusCounts_constructor_is_text :
  let rows := handleFile JS.trim StringToNumber constructorStatus in
  length rows = 2%nat ∧
  statusCounts JS.toLowerCase NumberToString rows !! "constructor" = Some Text.
Proof. repeat split; by vm_compute. Qed.

(** A row with an empty status cell is counted, under the empty key, and
    the chart, which shows the four known statuses only, has nothing to
    show for it. *)
Lemma statusCounts_empty_status :
  let rows := handleFile JS.trim StringToNumber emptyStatus in
  length rows = 1%nat ∧
  statusCounts JS.toLowerCase NumberToString rows !! "" = Some (Tally 1) ∧
  distributionData NumberToString rows = [].
Proof. repeat split; by vm_compute. Qed.

End ObjectsFacts.

(** ** The summary and the average confidence, further *)

Module SummaryFacts.
Import JS Explorer ExplorerFacts.

Lemma sum_between (lo hi : Q) (xs : list Q) (acc : Q) :
  Forall (λ x, lo <= x <= hi)%Q xs →
  (acc + inject_Z (Z.of_nat (length xs)) * lo <= foldl Qplus acc xs
   <= acc + inject_Z (Z.of_nat (length xs)) * hi)%Q.
Proof.
  intros H. revert acc. induction H as [| x xs [Hlo Hhi] _ IH]; intros acc.
  - change (inject_Z (Z.of_nat (length (@nil Q)))) with 0%Q. simpl. split; lra.
  - cbn [foldl]. specialize (IH (acc + x)%Q).
    replace (length (x :: xs)) with (S (length xs)) by done.
    rewrite Nat2Z.inj_succ. unfold Z.succ. rewrite inject_Z_plus.
    change (inject_Z 1) with 1%Q.
    destruct IH as [IH1 IH2]. generalize dependent (inject_Z (Z.of_nat (length xs))).
    intros n IH1 IH2. split; lra.
Qed.

Lemma quotient_between (lo hi s : Q) (n : nat) :
  (0 < n)%nat →
  (inject_Z (Z.of_nat n) * lo <= s <= inject_Z (Z.of_nat n) * hi)%Q →
  (lo <= s / inject_Z (Z.of_nat n) <= hi)%Q.
Proof.
  intros Hn [H1 H2].
  assert (0 < inject_Z (Z.of_nat n))%Q as Hpos.
  { change 0%Q with (inject_Z 0). rewrite <- Zlt_Qlt. lia. }
  split.
  - apply Qle_shift_div_l; [done |]. lra.
  - apply Qle_shift_div_r; [done |]. lra.
Qed.

Lemma mean_run (σ : gmap nat (list Q)) (arr : nat) (xs : list Q) :
  σ !! arr = Some xs →
  mean arr σ = (if (0 <? length xs)%nat
                then (foldl Qplus 0 xs / inject_Z (Z.of_nat (length xs)))%Q
                else 0%Q, σ).
Proof. intros H. unfold mean, bind, contents, ret. by rewrite H. Qed.

(** The value [med] returns for a non-empty array: an element of the sorted
    copy, or the average of two of them. *)
Lemma med_value (σ : gmap nat (list Q)) (arr : nat) (xs : list Q) :
  σ !! arr = Some xs → xs ≠ [] →
  ∃ v σ', med arr σ = (Some v, σ') ∧
    ((length xs mod 2 = 1)%nat ∧ v ∈ xs ∨
     (length xs mod 2 = 0)%nat ∧ ∃ a b, a ∈ xs ∧ b ∈ xs ∧ v = ((a + b) / 2)%Q).
Proof.
  intros Harr Hxs. rewrite (med_run σ arr xs Harr).
  assert (0 < length xs)%nat as Hpos by (destruct xs; simpl; [done | lia]).
  destruct (Nat.eqb_spec (length xs) 0) as [? | _]; [lia |]. cbv zeta.
  set (sv := Array_sort (λ a b, (a - b)%Q) xs).
  assert (length sv = length xs) as Hlen by apply StableSortFacts.sort_length.
  assert (∀ i x, sv !! i = Some x → x ∈ xs) as Hin.
  { intros i x Hx. apply list_elem_of_lookup_2 in Hx.
    eapply elem_of_Permutation_proper; [| exact Hx].
    symmetry. apply Array_sort_Permutation. }
  rewrite Hlen.
  replace (Z.of_nat (length xs) / 2)%Z with (Z.of_nat (length xs / 2))
    by (rewrite Nat2Z.inj_div; done).
  replace (Z.of_nat (length xs) mod 2)%Z with (Z.of_nat (length xs mod 2))
    by (rewrite Nat2Z.inj_mod; done).
  pose proof (Nat.mod_upper_bound (length xs) 2 ltac:(lia)) as Hmod.
  pose proof (Nat.div_mod_eq (length xs) 2) as Hdiv.
  destruct (Z.eqb_spec (Z.of_nat (length xs mod 2)) 0) as [Hpar | Hpar]; simpl negb.
  - assert (length xs mod 2 = 0)%nat as Hev by lia.
    replace (Z.of_nat (length xs / 2) - 1)%Z with (Z.of_nat (length xs / 2 - 1)) by lia.
    rewrite !index_of_nat.
    destruct (lookup_lt_is_Some_2 sv (length xs / 2 - 1)) as [a Ha]; [lia |].
    destruct (lookup_lt_is_Some_2 sv (length xs / 2)) as [b Hb]; [lia |].
    exists ((a + b) / 2)%Q, (<[fresh (dom σ) := sv]> σ).
    split; [by rewrite Ha, Hb |]. right. split; [done |].
    exists a, b. eauto.
  - assert (length xs mod 2 = 1)%nat as Hodd by lia.
    rewrite index_of_nat.
    destruct (lookup_lt_is_Some_2 sv (length xs / 2)) as [v Hv]; [lia |].
    exists v, (<[fresh (dom σ) := sv]> σ).
    split; [by rewrite Hv |]. left. eauto.
Qed.

Section Summary.
Variable Number : string → number.

Lemma getNum_missing (rows : list (gmap string scalar)) (k : string) :
  Forall (λ r, r !! k = None) rows → getNum Number rows k = [].
Proof.
  unfold getNum. induction 1 as [| r rows Hr _ IH]; [done |].
  cbn [omap list_omap]. rewrite Hr. simpl. exact IH.
Qed.

(** The mean and the median as [mean] and [med] compute them. *)
Local Abbreviation meanE := (λ xs : list Q,
  if (0 <? length xs)%nat
  then (foldl Qplus 0 xs / inject_Z (Z.of_nat (length xs)))%Q else 0%Q).

Lemma med_fst (σ : gmap nat (list Q)) (arr : nat) (xs : list Q) :
  σ !! arr = Some xs →
  ∃ σ', med arr σ = ((med 0%nat {[ 0%nat := xs ]}).1, σ') ∧ σ ⊆ σ' ∧
        ∀ a, is_Some (σ !! a) → σ' !! a = σ !! a.
Proof.
  intros Harr. rewrite (med_run σ arr xs Harr).
  rewrite (med_run {[ 0%nat := xs ]} 0%nat xs) by apply lookup_singleton_eq.
  assert (σ !! fresh (dom σ) = None) as Hfresh by apply not_elem_of_dom, is_fresh.
  destruct (length xs =? 0)%nat.
  - exists σ. done.
  - eexists. split; [done |]. split; [by apply insert_subseteq |].
    intros a [x Ha]. rewrite lookup_insert_ne; [done |]. intros <-. congruence.
Qed.

Lemma summaryStats_run (rows : list (gmap string scalar)) (σ : gmap nat (list Q)) :
  ∃ σ', summaryStats Number rows σ =
    ({| Explorer.rows := length rows;
        snrMean := meanE (getNum Number rows "koi_model_snr");
        depthMedian := (med 0%nat {[ 0%nat := getNum Number rows "koi_depth" ]}).1;
        periodMean := meanE (getNum Number rows "koi_period") |}, σ') ∧ σ ⊆ σ'.
Proof.
  unfold summaryStats, bind, alloc, ret.
  set (snr := getNum Number rows "koi_model_snr").
  set (depth := getNum Number rows "koi_depth").
  set (period := getNum Number rows "koi_period").
  set (a1 := fresh (dom σ)). set (σ1 := <[a1 := snr]> σ).
  set (a2 := fresh (dom σ1)). set (σ2 := <[a2 := depth]> σ1).
  set (a3 := fresh (dom σ2)). set (σ3 := <[a3 := period]> σ2).
  assert (σ !! a1 = None) as H1 by apply not_elem_of_dom, is_fresh.
  assert (σ1 !! a2 = None) as H2 by apply not_elem_of_dom, is_fresh.
  assert (σ2 !! a3 = None) as H3 by apply not_elem_of_dom, is_fresh.
  assert (σ1 !! a1 = Some snr) as E1 by apply lookup_insert_eq.
  assert (σ2 !! a2 = Some depth) as E2 by apply lookup_insert_eq.
  assert (σ3 !! a3 = Some period) as E3 by apply lookup_insert_eq.
  assert (a2 ≠ a1) as N21 by (intros E; rewrite E in H2; congruence).
  assert (σ2 !! a1 = Some snr) as E21 by (unfold σ2; by rewrite lookup_insert_ne).
  assert (a3 ≠ a1) as N31 by (intros E; rewrite E in H3; congruence).
  assert (a3 ≠ a2) as N32 by (intros E; rewrite E in H3; congruence).
  assert (σ3 !! a1 = Some snr) as E31 by (unfold σ3; by rewrite lookup_insert_ne).
  assert (σ3 !! a2 = Some depth) as E32 by (unfold σ3; by rewrite lookup_insert_ne).
  rewrite (mean_run σ3 a1 snr E31).
  destruct (med_fst σ3 a2 depth E32) as (σ4 & -> & Hsub & Hkeep).
  assert (σ4 !! a3 = Some period) as E43 by (rewrite Hkeep; [done | by eexists]).
  rewrite (mean_run σ4 a3 period E43).
  exists σ4. split; [done |].
  etrans; [| exact Hsub]. etrans; [| by apply insert_subseteq].
  etrans; [| by apply insert_subseteq]. by apply insert_subseteq.
Qed.

(** X17: the summary does not depend on the arrays that exist when it is
    computed and leaves all of them unchanged; its [rows] is the number of
    records, and its median is always a number. *)
Theorem summaryStats_independent_of_store (rows : list (gmap string scalar))
    (σ : gmap nat (list Q)) :
  (summaryStats Number rows σ).1 = (summaryStats Number rows ∅).1 ∧
  σ ⊆ (summaryStats Number rows σ).2 ∧
  Explorer.rows (summaryStats Number rows σ).1 = length rows ∧
  is_Some (depthMedian (summaryStats Number rows σ).1).
Proof.
  destruct (summaryStats_run rows σ) as (σ' & -> & Hsub).
  destruct (summaryStats_run rows ∅) as (σ0 & -> & _).
  split; [done |]. split; [done |]. split; [done |]. simpl.
  rewrite (med_run {[ 0%nat := getNum Number rows "koi_depth" ]} 0%nat _
             (lookup_singleton_eq _ _)).
  destruct (getNum Number rows "koi_depth") as [| x xs] eqn:E; [by eexists |].
  destruct (med_value {[ 0%nat := x :: xs ]} 0%nat (x :: xs)) as (v & σ1 & Hrun & _);
    [apply lookup_singleton_eq | done |].
  rewrite (med_run {[ 0%nat := x :: xs ]} 0%nat _ (lookup_singleton_eq _ _)) in Hrun.
  rewrite Hrun. by eexists.
Qed.

(** X18: for an upload whose records have none of the three summary
    columns, the empty upload included, the two means and the median are
    all 0. *)
Theorem summaryStats_without_columns (rows : list (gmap string scalar))
    (σ : gmap nat (list Q)) :
  Forall (λ r, r !! "koi_model_snr" = None) rows →
  Forall (λ r, r !! "koi_depth" = None) rows →
  Forall (λ r, r !! "koi_period" = None) rows →
  (summaryStats Number rows σ).1
  = {| Explorer.rows := length rows; snrMean := 0; depthMedian := Some 0%Q;
       periodMean := 0 |}.
Proof.
  intros Hs Hd Hp. destruct (summaryStats_run rows σ) as (σ' & -> & _).
  by rewrite !getNum_missing.
Qed.
End Summary.

Lemma summaryStats_without_columns_witness :
  let rows := [record StringToNumber ["status"] "confirmed"] in
  Forall (λ r : gmap string scalar, r !! "koi_model_snr" = None) rows ∧
  Forall (λ r : gmap string scalar, r !! "koi_depth" = None) rows ∧
  Forall (λ r : gmap string scalar, r !! "koi_period" = None) rows ∧
  (summaryStats StringToNumber rows ∅).1
  = {| Explorer.rows := length rows; snrMean := 0; depthMedian := Some 0%Q;
       periodMean := 0 |}.
Proof.
  intros rows.
  assert (Forall (λ r : gmap string scalar, r !! "koi_model_snr" = None) rows) as H1
    by (repeat constructor).
  assert (Forall (λ r : gmap string scalar, r !! "koi_depth" = None) rows) as H2
    by (repeat constructor).
  assert (Forall (λ r : gmap string scalar, r !! "koi_period" = None) rows) as H3
    by (repeat constructor).
  split; [exact H1 |]. split; [exact H2 |]. split; [exact H3 |].
  exact (summaryStats_without_columns StringToNumber rows ∅ H1 H2 H3).
Defined.

Lemma confidence_sum (history : list (option Q)) (acc : Q) :
  foldl (λ sum h, sum + default 0 h)%Q acc history
  = foldl Qplus acc (default 0%Q <$> history).
Proof.
  revert acc. induction history as [| h history IH]; intros acc; [done |].
  simpl. apply IH.
Qed.

(** X19: for a non-empty history whose confidences, where present, lie in
    [0,1], the average confidence is a number in [0,1] (an entry without a
    confidence counting as 0) and the percentage shown lies between 0 and
    100. *)
Theorem avgConfidence_percentage (history : list (option Q)) :
  history ≠ [] →
  Forall (λ h, match h with Some c => (0 <= c <= 1)%Q | None => True end) history →
  ∃ a, avgConfidence (Some history) = Some a ∧
       (0 <= a <= 1)%Q ∧
       (0 ≤ Math_round (a * 100) ≤ 100)%Z.
Proof.
  intros Hne Hall. unfold avgConfidence.
  destruct history as [| h0 history0] eqn:E; [done |]. rewrite <- E in *.
  assert (0 < length history)%nat as Hpos by (rewrite E; simpl; lia).
  destruct (Nat.eqb_spec (length history) 0) as [? | _]; [lia |].
  eexists. split; [done |].
  assert (0 <= foldl (λ sum h, sum + default 0 h) 0 history
               / inject_Z (Z.of_nat (length history)) <= 1)%Q as [Hlo Hhi].
  { rewrite confidence_sum. apply quotient_between; [done |].
    pose proof (sum_between 0 1 (default 0%Q <$> history) 0) as Hs.
    rewrite length_fmap in Hs. destruct Hs as [H1 H2].
    - apply Forall_fmap. eapply Forall_impl; [exact Hall |].
      intros [c |]; [done |]. split; unfold Qle; simpl; lia.
    - split; lra. }
  split; [done |].
  set (a := (foldl _ _ _ / _)%Q) in *. clearbody a. unfold Math_round. split.
  - apply Z.le_trans with (Qfloor 0); [done |]. apply Qfloor_resp_le. lra.
  - apply Z.le_trans with (Qfloor (100 + (1 # 2))); [| done].
    apply Qfloor_resp_le. lra.
Qed.


Lemma avgConfidence_percentage_witness :
  confidences ≠ [] ∧
  Forall (λ h, match h with Some c => (0 <= c <= 1)%Q | None => True end) confidences ∧
  ∃ a, avgConfidence (Some confidences) = Some a ∧
       (0 <= a <= 1)%Q ∧
       (0 ≤ Math_round (a * 100) ≤ 100)%Z.
Proof.
  assert (confidences ≠ []) as H1 by discriminate.
  assert (Forall (λ h, match h with Some c => (0 <= c <= 1)%Q | None => True end)
                 confidences) as H2.
  { repeat constructor; unfold Qle; simpl; lia. }
  split; [exact H1 |]. split; [exact H2 |].
  exact (avgConfidence_percentage confidences H1 H2).
Defined.

End SummaryFacts.

(** ** The median over the machine's numbers *)

Module MachineFacts.
Import JS Explorer ExplorerFacts Machine.

Section Arithmetic.
Context {num : Type} (zero two : num) (add sub div : num → num → num).
Context (positive : num → bool).

Local Abbreviation sorted := (StableSort.sort (λ a b, negb (positive (sub a b)))).

(** [med] on an array of the store: what it returns and what it leaves. *)
Lemma med_steps (σ : gmap nat (list num)) (arr : nat) (xs : list num) :
  σ !! arr = Some xs →
  med num zero two add sub div positive arr σ =
    if (length xs =? 0)%nat then (Some zero, σ)
    else
      let sv := sorted xs in
      let m := (Z.of_nat (length sv) / 2)%Z in
      (if negb (Z.of_nat (length sv) mod 2 =? 0)%Z then index sv m
       else x ← index sv (m - 1)%Z; y ← index sv m; Some (div (add x y) two),
       <[fresh (dom σ) := sv]> σ).
Proof.
  intros Harr. unfold med, bind, contents at 1. rewrite Harr. simpl.
  destruct (length xs =? 0)%nat; [done |].
  unfold spread, bind, contents, alloc, sort_, ret. rewrite Harr. simpl.
  rewrite alter_insert_eq, lookup_insert_eq. done.
Qed.

(** X16: [med] in any arithmetic whose comparator [(a, b) => a - b] agrees
    with an order [le] on the elements of the array, as binary64 does on
    finite numbers.  For the empty array the result is 0.  Otherwise, with
    [s] the elements in non-decreasing order, it is the middle element of
    [s] for an odd length, and for an even length what the arithmetic makes
    of [(a + b) / 2] for the two middle elements [a] and [b].  The array it
    was given, like every other array of the store, is unchanged
    afterwards. *)
Theorem med_middle_of_sorted (le : relation num)
    (σ : gmap nat (list num)) (arr : nat) (xs : list num) :
  σ !! arr = Some xs →
  (∀ x y, x ∈ xs → y ∈ xs → positive (sub x y) = false → le x y) →
  (∀ x y, x ∈ xs → y ∈ xs → positive (sub x y) = true → le y x) →
  ∃ v σ', med num zero two add sub div positive arr σ = (Some v, σ') ∧
    σ' !! arr = Some xs ∧ σ ⊆ σ' ∧
    (xs = [] → v = zero) ∧
    (xs ≠ [] → ∃ s, s ≡ₚ xs ∧ Sorted le s ∧
       ((length xs mod 2 = 1)%nat → s !! (length xs / 2)%nat = Some v) ∧
       ((length xs mod 2 = 0)%nat →
          ∃ a b, s !! (length xs / 2 - 1)%nat = Some a ∧
                 s !! (length xs / 2)%nat = Some b ∧
                 v = div (add a b) two)).
Proof.
  intros Harr Hle Hge. rewrite (med_steps σ arr xs Harr).
  destruct (decide (xs = [])) as [-> | Hxs].
  { exists zero, σ. simpl. repeat split; done. }
  assert (0 < length xs)%nat as Hpos by (destruct xs; simpl; [done | lia]).
  destruct (Nat.eqb_spec (length xs) 0) as [? | _]; [lia |]. cbv zeta.
  set (sv := sorted xs).
  assert (sv ≡ₚ xs) as Hperm by apply StableSortFacts.sort_Permutation.
  assert (Sorted le sv) as Hsorted.
  { apply StableSortFacts.sort_Sorted_among; intros x y Hx Hy H.
    - apply Hle; [done | done |]. by destruct (positive (sub x y)).
    - apply Hge; [done | done |]. by destruct (positive (sub x y)). }
  assert (length sv = length xs) as Hlen by apply StableSortFacts.sort_length.
  assert (σ !! fresh (dom σ) = None) as Hfresh by apply not_elem_of_dom, is_fresh.
  assert (fresh (dom σ) ≠ arr) as Hne by (intros E; rewrite E in Hfresh; congruence).
  rewrite Hlen.
  replace (Z.of_nat (length xs) / 2)%Z with (Z.of_nat (length xs / 2))
    by (rewrite Nat2Z.inj_div; done).
  replace (Z.of_nat (length xs) mod 2)%Z with (Z.of_nat (length xs mod 2))
    by (rewrite Nat2Z.inj_mod; done).
  pose proof (Nat.mod_upper_bound (length xs) 2 ltac:(lia)) as Hmod.
  pose proof (Nat.div_mod_eq (length xs) 2) as Hdiv.
  destruct (Z.eqb_spec (Z.of_nat (length xs mod 2)) 0) as [Hpar | Hpar]; simpl negb.
  - (* even length *)
    assert (length xs mod 2 = 0)%nat as Hev by lia.
    assert (1 ≤ length xs / 2)%nat as Hhalf by lia.
    replace (Z.of_nat (length xs / 2) - 1)%Z with (Z.of_nat (length xs / 2 - 1)) by lia.
    rewrite !index_of_nat.
    destruct (lookup_lt_is_Some_2 sv (length xs / 2 - 1)) as [a Ha]; [lia |].
    destruct (lookup_lt_is_Some_2 sv (length xs / 2)) as [b Hb]; [lia |].
    exists (div (add a b) two), (<[fresh (dom σ) := sv]> σ).
    split; [by rewrite Ha, Hb |]. split; [by rewrite lookup_insert_ne |].
    split; [by apply insert_subseteq |]. split; [done |].
    intros _. exists sv. split; [done |].
    split; [done |]. split; [intros ?; exfalso; lia |].
    intros _. by exists a, b.
  - (* odd length *)
    assert (length xs mod 2 = 1)%nat as Hodd by lia.
    rewrite index_of_nat.
    destruct (lookup_lt_is_Some_2 sv (length xs / 2)) as [v Hv]; [lia |].
    exists v, (<[fresh (dom σ) := sv]> σ).
    split; [by rewrite Hv |]. split; [by rewrite lookup_insert_ne |].
    split; [by apply insert_subseteq |]. split; [done |].
    intros _. exists sv. split; [done |].
    split; [done |]. split; [done | intros ?; exfalso; lia].
Qed.
End Arithmetic.

(** Over the exact rationals this is the [med] of the summary. *)
Lemma med_rational (arr : nat) (σ : gmap nat (list Q)) :
  Explorer.med arr σ
  = med Q 0%Q 2%Q Qplus Qminus Qdiv (λ v, negb (Qle_bool v 0)) arr σ.
Proof.
  unfold Explorer.med, med, Explorer.bind, bind, Explorer.contents, contents.
  destruct (length (default [] (σ !! arr)) =? 0)%nat; [done |].
  unfold Explorer.spread, spread, Explorer.bind, bind, Explorer.contents, contents,
    Explorer.alloc, alloc, Explorer.sort_, sort_, Array_sort.
  assert (∀ l : list Q,
            StableSort.sort (λ a b : Q, Qle_bool (a - b) 0) l
            = StableSort.sort (λ a b : Q, negb (negb (Qle_bool (a - b) 0))) l) as E.
  { intros l. apply StableSortFacts.sort_ext. intros x y. by rewrite negb_involutive. }
  cbv beta. rewrite !alter_insert_eq, !lookup_insert_eq, E. done.
Qed.

Import PrimFloat.

(** C10: over binary64 the median of the two depths 1e308 and 1e308 comes
    out as Infinity: their sum overflows before it is halved.  The value
    exceeds both elements, while the median of a number and itself is that
    number.  On the four depths 3, 1, 2 and 10 the result is 2.5, the
    average of the middle elements 2 and 3. *)
Theorem med_overflows :
  (med64 0%nat {[ 0%nat := [huge; huge] ]}).1 = Some infinity ∧
  ltb huge infinity = true ∧
  (med64 0%nat {[ 0%nat := depths ]}).1 = Some 2.5%float.
Proof. repeat split; vm_compute; reflexivity. Qed.

Lemma med_middle_of_sorted_witness :
  let σ : gmap nat (list float) := {[ 0%nat := depths ]} in
  let le := λ a b : float, leb a b = true in
  σ !! 0%nat = Some depths ∧
  (∀ x y, x ∈ depths → y ∈ depths → ltb 0%float (sub x y) = false → le x y) ∧
  (∀ x y, x ∈ depths → y ∈ depths → ltb 0%float (sub x y) = true → le y x) ∧
  ∃ v σ', med64 0%nat σ = (Some v, σ') ∧
    σ' !! 0%nat = Some depths ∧ σ ⊆ σ' ∧
    (depths = [] → v = 0%float) ∧
    (depths ≠ [] → ∃ s, s ≡ₚ depths ∧ Sorted le s ∧
       ((length depths mod 2 = 1)%nat → s !! (length depths / 2)%nat = Some v) ∧
       ((length depths mod 2 = 0)%nat →
          ∃ a b, s !! (length depths / 2 - 1)%nat = Some a ∧
                 s !! (length depths / 2)%nat = Some b ∧
                 v = div (add a b) 2%float)).
Proof.
  intros σ le.
  assert (σ !! 0%nat = Some depths) as H1 by reflexivity.
  assert (∀ x y, x ∈ depths → y ∈ depths → ltb 0%float (sub x y) = false → le x y) as H2.
  { intros x y Hx Hy. unfold depths in Hx, Hy.
    repeat (apply elem_of_cons in Hx as [-> | Hx]);
      try (by apply elem_of_nil in Hx);
      repeat (apply elem_of_cons in Hy as [-> | Hy]);
      try (by apply elem_of_nil in Hy);
      vm_compute; intros H; first [discriminate H | reflexivity]. }
  assert (∀ x y, x ∈ depths → y ∈ depths → ltb 0%float (sub x y) = true → le y x) as H3.
  { intros x y Hx Hy. unfold depths in Hx, Hy.
    repeat (apply elem_of_cons in Hx as [-> | Hx]);
      try (by apply elem_of_nil in Hx);
      repeat (apply elem_of_cons in Hy as [-> | Hy]);
      try (by apply elem_of_nil in Hy);
      vm_compute; intros H; first [discriminate H | reflexivity]. }
  split; [exact H1 |]. split; [exact H2 |]. split; [exact H3 |].
  exact (med_middle_of_sorted 0%float 2%float add sub div (λ v, ltb 0%float v)
           le σ 0%nat depths H1 H2 H3).
Defined.

End MachineFacts.

(** ** The parameter form *)

Module ParameterInputFacts.
Import JS ParameterInput.

Section Form.
Variable parseFloat : string → number.

Lemma run_snoc events e :
  run parseFloat (events ++ [e])%list = handle parseFloat (run parseFloat events) e.
Proof. unfold run. by rewrite foldl_snoc. Qed.

Lemma lastChange_snoc f events e :
  lastChange f (events ++ [e])%list
  = match e with
    | Change g t => if String.eqb (keyOf g) (keyOf f) then Some t else lastChange f events
    | Submit => lastChange f events
    end.
Proof.
  induction events as [| e' events IH]; simpl.
  - destruct e as [g t |]; [| done]. by destruct (String.eqb _ _).
  - rewrite IH. destruct e as [g t |]; [| done].
    destruct (String.eqb (keyOf g) (keyOf f)); [done |]. done.
Qed.

(** X20: after any sequence of changes and submissions, a parameter holds
    [parseFloat] of the text of its last change, or its initial value when
    it was never changed: a change touches no other parameter, and
    submitting changes none. *)
Theorem params_last_change_wins (events : list event) (f : field) :
  params (run parseFloat events) !! keyOf f
  = match lastChange f events with
    | Some text => Some (SNum (parseFloat text))
    | None => initialParams !! keyOf f
    end.
Proof.
  induction events as [| e events IH] using rev_ind; [done |].
  rewrite run_snoc, lastChange_snoc. destruct e as [g t |]; simpl; [| done].
  unfold updateParam. destruct (String.eqb_spec (keyOf g) (keyOf f)) as [E | Hne].
  - by rewrite E, lookup_insert_eq.
  - by rewrite lookup_insert_ne.
Qed.

Lemma predicted_from (seen events : list event) :
  predicted (run parseFloat (seen ++ events)%list)
  = (predicted (run parseFloat seen)
     ++ ((λ pre, params (run parseFloat pre)) <$> beforeSubmits seen events))%list.
Proof.
  revert seen. induction events as [| e events IH]; intros seen.
  - by rewrite !app_nil_r.
  - rewrite (cons_middle e), app_assoc, IH, run_snoc.
    destruct e as [g t |]; simpl; [done |]. by rewrite <- app_assoc.
Qed.

(** X21: [onPredict] is called once per submission, in order, each time
    with the parameters as the events before that submission left them. *)
Theorem predicted_are_snapshots (events : list event) :
  predicted (run parseFloat events)
  = (λ pre, params (run parseFloat pre)) <$> beforeSubmits [] events.
Proof. exact (predicted_from [] events). Qed.
End Form.
End ParameterInputFacts.

(** ** The mission tables, together *)

Module TablesFacts.
Import Models.

(** X22: the two tables describe the same missions: they have the same
    keys, every entry of [models] is named by its key, and for every
    mission the specification states the accuracy and the F1 score that
    [models] states. *)
Theorem mission_tables_agree :
  dom models = dom modelSpecifications ∧
  map_Forall (λ k info,
    ModelInfo.name info = k ∧
    ∃ spec, modelSpecifications !! k = Some spec ∧
      Metrics.accuracy (ModelSpecification.metrics spec) = ModelInfo.accuracy info ∧
      Metrics.f1Score (ModelSpecification.metrics spec) = ModelInfo.f1Score info)
    models.
Proof.
  split; [by vm_compute |].
  apply map_Forall_lookup. intros k info Hk.
  apply elem_of_list_to_map_2 in Hk. simpl in Hk.
  repeat (apply elem_of_cons in Hk as [Hk | Hk]; [injection Hk as -> -> |]);
    [.. | by apply elem_of_nil in Hk];
    (split; [reflexivity |]); eexists; (split; [by vm_compute |]); split; reflexivity.
Qed.

End TablesFacts.

(** ** Navigation *)

Module NavigationFacts.
Import Navigation.

(** X23: the footer links to exactly the pages the application routes: the
    paths of the links are the paths of the routes, in the same order and
    without repetition. *)
Theorem footer_links_are_routes :
  path <$> navLinks = routePath <$> routes ∧ NoDup (routePath <$> routes).
Proof.
  split; [reflexivity |]. apply (bool_decide_unpack _). by vm_compute.
Qed.

End NavigationFacts.
